(** * Discord MCP server: credentials, permissions, rate limiting, bot
      registry and content moderation

    A shallow embedding of the core of [q1_discord_mcp_server]:

    - [src/auth/index.js]: the API-key store, [hasPermission] and the
      sliding-window rate limiter built by [createRateLimiter];
    - [src/discord/botManager.js]: [startBot] / [stopBot] over the
      [activeBots] registry;
    - [src/moderation/contentModerator.js]: the seven moderation rules,
      [moderateContent] and [moderateUserBehavior];
    - [src/index.js]: the start-up sequence [startApplication].

    Module-level [Map]s become [gmap]s held in an explicit state record, the
    logger becomes a trace of the calls made to it, and every reading of the
    clock or of a random source is an explicit argument.

    A [string] is a JavaScript string all of whose UTF-16 code units lie
    below U+0100: one character here is one code unit there.  A string
    holding a code unit from U+0100 on has no counterpart, so a statement
    about every [string] speaks of the code on the former only. *)

From Stdlib Require Import ZArith String Ascii List Bool Lia DecimalString.
From stdpp Require Import gmap strings list.
Import ListNotations.

Open Scope string_scope.
Open Scope list_scope.

(** ** JavaScript values and the string primitives the code calls *)

Module Js.

(** The values that reach the functions below.  Arrays hold strings: the
    only arrays the code inspects are permission lists. *)
Inductive value :=
| Undefined
| Null
| Bool (b : bool)
| Number (n : Z)
| Str (s : string)
| Array (xs : list string)
| Object.

(** The fields of an object literal, in the order they are written. *)
Definition fields := list (string * value).

(** [!v] is [negb (truthy v)]. *)
Definition truthy (v : value) : bool :=
  match v with
  | Undefined | Null => false
  | Bool b => b
  | Number n => negb (n =? 0)%Z
  | Str s => negb (s =? "")
  | Array _ | Object => true
  end.

Definition isArray (v : value) : bool :=
  match v with Array _ => true | _ => false end.

(** [Array.prototype.includes] with a string argument. *)
Definition includes (xs : list string) (x : string) : bool :=
  existsb (String.eqb x) xs.

(** [String.prototype.includes]. *)
Fixpoint str_includes (hay needle : string) : bool :=
  String.prefix needle hay ||
  match hay with
  | EmptyString => false
  | String _ hay' => str_includes hay' needle
  end.

(** [String.prototype.toLowerCase] on strings of code units below U+0100:
    there it works one code unit at a time and shifts A-Z and the accented
    capitals U+00C0..U+00DE (but not the multiplication sign U+00D7) by 32.
    From U+0100 on it no longer does (a capital sigma is lowered according
    to what stands next to it, U+0130 becomes two code units); such strings
    are outside [string]. *)
Definition lowerChar (c : ascii) : ascii :=
  let n := N_of_ascii c in
  if ((65 <=? n) && (n <=? 90) ||
      (192 <=? n) && (n <=? 222) && negb (n =? 215))%N
  then ascii_of_N (n + 32) else c.

Fixpoint toLowerCase (s : string) : string :=
  match s with
  | EmptyString => EmptyString
  | String c s' => String (lowerChar c) (toLowerCase s')
  end.

(** [Array.prototype.join]. *)
Fixpoint join (sep : string) (xs : list string) : string :=
  match xs with
  | [] => ""
  | [x] => x
  | x :: xs' => x +:+ sep +:+ join sep xs'
  end.

(** [s.substring(0, n)]. *)
Definition substring0 (n : nat) (s : string) : string := String.substring 0 n s.

(** An integer interpolated into a template string. *)
Definition numToString (z : Z) : string := NilZero.string_of_int (Z.to_int z).

(** [Math.ceil(a / b)] for an integer [a] and a positive integer [b]: the
    double quotient of two integers below 2^53 is within half an ulp of the
    exact one, which is an integer or at least [1/b] away from one, so its
    ceiling is the exact ceiling. *)
Definition ceilDiv (a b : Z) : Z := (- ((- a) / b))%Z.

(** What a call returns: normally, or by throwing. *)
Inductive completion (A : Type) :=
| Return (a : A)
| Throw (e : string).
Arguments Return {A} a.
Arguments Throw {A} e.

Definition bind {A B} (c : completion A) (f : A -> completion B) : completion B :=
  match c with
  | Return a => f a
  | Throw e => Throw e
  end.

End Js.

Notation "'let!' x ':=' c 'in' k" := (Js.bind c (fun x => k))
  (at level 10, x name, c at level 100, k at level 200).

(** ** The logger, as the trace of calls made to it *)

Module Logger.

Definition details := Js.fields.

Inductive call :=
| Audit (action userId resource : string) (d : details)
| SecurityEvent (event severity : string) (d : details)
| DiscordEvent (event : string) (d : details)
| DiscordError (event err : string)
| Info (msg : string)
| Warn (msg : string)
| Error (msg err : string)
| ConsoleLog (msg : string).

(** The strings a value carries, and the strings a call writes out. *)
Definition valueStrings (v : Js.value) : list string :=
  match v with
  | Js.Str s => [s]
  | Js.Array xs => xs
  | _ => []
  end.

Definition detailStrings (d : details) : list string :=
  flat_map (fun kv => valueStrings (snd kv)) d.

Definition written (c : call) : list string :=
  match c with
  | Audit a u r d => a :: u :: r :: detailStrings d
  | SecurityEvent e s d => e :: s :: detailStrings d
  | DiscordEvent e d => e :: detailStrings d
  | DiscordError e err => [e; err]
  | Info m | Warn m | ConsoleLog m => [m]
  | Error m err => [m; err]
  end.

(** [secret] occurs somewhere in what the trace wrote. *)
Definition mentions (secret : string) (tr : list call) : bool :=
  existsb (fun s => Js.str_includes s secret) (flat_map written tr).

End Logger.

(** ** [src/auth/index.js] *)

Module Auth.

(** The collaborators [createApiKey] and [createUser] call: the configured
    work factor and [bcrypt.hashSync]. *)
Record Env := {
  bcryptRounds : Z;
  hashSync : string -> Z -> string;
}.

Record KeyData := {
  userId : string;
  hashedKey : string;
  permissions : Js.value;
  createdAt : Z;
  lastUsed : option Z;
  isActive : bool;
}.

Record User := {
  id : string;
  username : string;
  email : string;
  hashedPassword : string;
  userPermissions : Js.value;
  userCreatedAt : Z;
  lastLogin : option Z;
  userIsActive : bool;
}.

(** The two module-level maps and the logger trace. *)
Record State := {
  apiKeys : gmap string KeyData;
  users : gmap string User;
  log : list Logger.call;
}.

Definition initial : State := {| apiKeys := ∅; users := ∅; log := [] |}.

Record ApiKeyResult := {
  res_apiKey : string;
  res_permissions : Js.value;
  res_createdAt : Z;
}.

(** [createApiKey(userId, permissions)]; [generated] is what
    [generateApiKey()] drew and [now] is [new Date()]. *)
Definition createApiKey (env : Env) (generated : string) (now : Z)
    (uid : string) (perms : Js.value) (st : State) : ApiKeyResult * State :=
  let apiKey := generated in
  let hashed := hashSync env apiKey (bcryptRounds env) in
  let keyData := {| userId := uid; hashedKey := hashed; permissions := perms;
                    createdAt := now; lastUsed := None; isActive := true |} in
  ({| res_apiKey := apiKey; res_permissions := perms; res_createdAt := createdAt keyData |},
   {| apiKeys := <[apiKey := keyData]> (apiKeys st);
      users := users st;
      log := log st ++ [Logger.Audit "API_KEY_CREATED" uid "api_key" [("permissions", perms)]] |}).

Record Principal := {
  p_userId : string;
  p_permissions : Js.value;
}.

(** [apiKeys.get(apiKey)]: only a string can be a key of the map. *)
Definition getKey (st : State) (apiKey : Js.value) : option KeyData :=
  match apiKey with
  | Js.Str k => apiKeys st !! k
  | _ => None
  end.

(** [keyData.lastUsed = new Date()]. *)
Definition touched (now : Z) (keyData : KeyData) : KeyData :=
  {| userId := userId keyData; hashedKey := hashedKey keyData;
     permissions := permissions keyData; createdAt := createdAt keyData;
     lastUsed := Some now; isActive := isActive keyData |}.

(** [validateApiKey(apiKey)]; [None] is [null]. *)
Definition validateApiKey (now : Z) (apiKey : Js.value) (st : State)
    : option Principal * State :=
  if negb (Js.truthy apiKey) then (None, st)
  else
    match apiKey, getKey st apiKey with
    | Js.Str k, Some keyData =>
        if negb (isActive keyData) then (None, st)
        else
          let keyData' := touched now keyData in
          (Some {| p_userId := userId keyData'; p_permissions := permissions keyData' |},
           {| apiKeys := <[k := keyData']> (apiKeys st); users := users st; log := log st |})
    | _, _ => (None, st)
    end.

(** [hasPermission(userPermissions, requiredPermission)]. *)
Definition hasPermission (userPermissions : Js.value) (requiredPermission : string) : bool :=
  if negb (Js.truthy userPermissions) || negb (Js.isArray userPermissions) then false
  else
    match userPermissions with
    | Js.Array xs =>
        Js.includes xs requiredPermission || Js.includes xs "admin" || Js.includes xs "*"
    | _ => false
    end.

Record UserResult := {
  ur_id : string;
  ur_username : string;
  ur_email : string;
  ur_permissions : Js.value;
  ur_createdAt : Z;
}.

(** [createUser(username, email, password, permissions)]; [rnd] is the
    base-36 fragment drawn from [Math.random()]. *)
Definition createUser (env : Env) (rnd : string) (now : Z)
    (uname mail password : string) (perms : Js.value) (st : State) : UserResult * State :=
  let uid := "user_" +:+ Js.numToString now +:+ "_" +:+ rnd in
  let user := {| id := uid; username := uname; email := mail;
                 hashedPassword := hashSync env password (bcryptRounds env);
                 userPermissions := perms; userCreatedAt := now;
                 lastLogin := None; userIsActive := true |} in
  ({| ur_id := uid; ur_username := uname; ur_email := mail; ur_permissions := perms;
      ur_createdAt := userCreatedAt user |},
   {| apiKeys := apiKeys st;
      users := <[uid := user]> (users st);
      log := log st ++ [Logger.Audit "USER_CREATED" uid "user"
                          [("username", Js.Str uname); ("email", Js.Str mail);
                           ("permissions", perms)]] |}).



(** A call into the store from outside, and the state it leaves. *)
Inductive Call :=
| CallCreateApiKey (generated : string) (now : Z) (uid : string) (perms : Js.value)
| CallValidateApiKey (now : Z) (apiKey : Js.value)
| CallCreateUser (rnd : string) (now : Z) (uname mail password : string) (perms : Js.value).

Definition perform (env : Env) (c : Call) (st : State) : State :=
  match c with
  | CallCreateApiKey generated now uid perms => snd (createApiKey env generated now uid perms st)
  | CallValidateApiKey now apiKey => snd (validateApiKey now apiKey st)
  | CallCreateUser rnd now uname mail password perms =>
      snd (createUser env rnd now uname mail password perms st)
  end.

Definition performAll (env : Env) (cs : list Call) (st : State) : State :=
  fold_left (fun st c => perform env c st) cs st.

(** *** The rate limiter *)

Record ReqUser := {
  ru_id : string;
  ru_permissions : Js.value;
  ru_authType : string;
}.

Record Request := {
  user : option ReqUser;
  ip : string;
}.

(** What the middleware does with the request: hand it on, or answer. *)
Inductive Outcome :=
| Next
| Respond (status : Z) (body : Js.fields).

(** The closure state of one limiter: its private [requests] map, and the
    logger trace. *)
Record Limiter := {
  requests : gmap string (list Z);
  lim_log : list Logger.call;
}.

Definition freshLimiter : Limiter := {| requests := ∅; lim_log := [] |}.

Definition limiterKey (req : Request) : string :=
  match user req with
  | Some u => ru_id u
  | None => ip req
  end.

(** [userRequests.filter(time => now - time < windowMs)]. *)
Definition prune (windowMs now : Z) (userRequests : list Z) : list Z :=
  List.filter (fun time => (now - time <? windowMs)%Z) userRequests.

Definition optId (u : option ReqUser) : Js.value :=
  match u with
  | Some r => Js.Str (ru_id r)
  | None => Js.Undefined
  end.

(** The middleware returned by [createRateLimiter(windowMs, maxRequests)],
    run on one request at clock reading [now].  [validRequests] is the
    array stored in the map, so the final [push] is seen through the map. *)
Definition rateLimiter (windowMs maxRequests : Z) (req : Request) (now : Z) (lm : Limiter)
    : Outcome * Limiter :=
  let key := limiterKey req in
  let requests1 :=
    match requests lm !! key with
    | Some _ => requests lm
    | None => <[key := []]> (requests lm)
    end in
  let userRequests := default [] (requests1 !! key) in
  let validRequests := prune windowMs now userRequests in
  let requests2 := <[key := validRequests]> requests1 in
  if (Z.of_nat (length validRequests) >=? maxRequests)%Z then
    (Respond 429 [("error", Js.Str "Rate limit exceeded");
                  ("code", Js.Str "RATE_LIMIT_EXCEEDED");
                  ("retryAfter", Js.Number (Js.ceilDiv windowMs 1000))],
     {| requests := requests2;
        lim_log := lim_log lm ++
          [Logger.SecurityEvent "RATE_LIMIT_EXCEEDED" "warning"
             [("userId", optId (user req)); ("ip", Js.Str (ip req));
              ("requests", Js.Number (Z.of_nat (length validRequests)))]] |})
  else
    (Next,
     {| requests := <[key := validRequests ++ [now]]> requests2;
        lim_log := lim_log lm |}).

(** Consecutive requests of one caller, one clock reading each. *)
Fixpoint rateLimiterRun (windowMs maxRequests : Z) (req : Request) (ts : list Z) (lm : Limiter)
    : list Outcome * Limiter :=
  match ts with
  | [] => ([], lm)
  | t :: ts' =>
      let '(o, lm1) := rateLimiter windowMs maxRequests req t lm in
      let '(os, lm2) := rateLimiterRun windowMs maxRequests req ts' lm1 in
      (o :: os, lm2)
  end.

(** The timestamps recorded for a key. *)
Definition history (lm : Limiter) (key : string) : list Z :=
  default [] (requests lm !! key).

End Auth.

(** ** [src/discord/botManager.js] *)

Module BotManager.

Record BotConfig := {
  id : string;
  token : string;
  name : string;
  ownerId : string;
}.

(** A discord.js [Client] object, by identity: the n-th one constructed. *)
Definition Client := nat.

Record BotInstance := {
  client : Client;
  config : BotConfig;
  startedAt : Z;
  isActive : bool;
}.

(** The module-level [activeBots] map, the number of clients constructed
    so far, and the logger trace. *)
Record State := {
  activeBots : gmap string BotInstance;
  clients : nat;
  log : list Logger.call;
}.

Definition initial : State := {| activeBots := ∅; clients := 0; log := [] |}.

(** [startBot] resolves with the new client, or with the registry entry
    when the id is already registered. *)
Inductive Started :=
| NewClient (c : Client)
| Existing (b : BotInstance).

(** [createBot(botConfig)]: a fresh client with its handlers attached.  The
    handlers only log, and constructing the client with the fixed intents
    does not throw. *)
Definition createBot (botConfig : BotConfig) (st : State) : Client * State :=
  (clients st,
   {| activeBots := activeBots st; clients := S (clients st); log := log st |}).

(** [startBot(botConfig)], awaited to completion.  [login] is how
    [client.login(botConfig.token)] settles: [None] when it resolves,
    [Some e] when it rejects with [e]; [now] is [new Date()]. *)
Definition startBot (login : option string) (now : Z) (botConfig : BotConfig) (st : State)
    : Js.completion Started * State :=
  match activeBots st !! id botConfig with
  | Some running =>
      (Js.Return (Existing running),
       {| activeBots := activeBots st; clients := clients st;
          log := log st ++ [Logger.Warn ("Bot " +:+ id botConfig +:+ " is already running")] |})
  | None =>
      let '(c, st1) := createBot botConfig st in
      match login with
      | Some e =>
          (Js.Throw e,
           {| activeBots := activeBots st1; clients := clients st1;
              log := log st1 ++ [Logger.DiscordError "BOT_START_ERROR" e] |})
      | None =>
          (Js.Return (NewClient c),
           {| activeBots :=
                <[id botConfig := {| client := c; config := botConfig;
                                     startedAt := now; isActive := true |}]> (activeBots st1);
              clients := clients st1;
              log := log st1 ++
                [Logger.Info ("Bot " +:+ name botConfig +:+ " started successfully");
                 Logger.DiscordEvent "BOT_STARTED"
                   [("botId", Js.Str (id botConfig)); ("botName", Js.Str (name botConfig))]] |})
      end
  end.

(** [stopBot(botId)], awaited to completion.  [destroy] is how
    [client.destroy()] settles. *)
Definition stopBot (destroy : option string) (botId : string) (st : State)
    : Js.completion bool * State :=
  match activeBots st !! botId with
  | None =>
      (Js.Return false,
       {| activeBots := activeBots st; clients := clients st;
          log := log st ++ [Logger.Warn ("Bot " +:+ botId +:+ " is not running")] |})
  | Some botInstance =>
      match destroy with
      | Some e =>
          (Js.Throw e,
           {| activeBots := activeBots st; clients := clients st;
              log := log st ++ [Logger.DiscordError "BOT_STOP_ERROR" e] |})
      | None =>
          (Js.Return true,
           {| activeBots := delete botId (activeBots st);
              clients := clients st;
              log := log st ++
                [Logger.Info ("Bot " +:+ botId +:+ " stopped successfully");
                 Logger.DiscordEvent "BOT_STOPPED"
                   [("botId", Js.Str botId);
                    ("botName", Js.Str (name (config botInstance)))]] |})
      end
  end.

(** [getBot(botId)]. *)
Definition getBot (botId : string) (st : State) : option BotInstance :=
  activeBots st !! botId.

End BotManager.

(** ** Regular expressions, as the JavaScript backtracking matcher runs them *)

Module Regex.

Inductive regex :=
| Eps
| Chr (p : ascii -> bool)
| Seq (r1 r2 : regex)
| Alt (r1 r2 : regex)
| Rep (greedy : bool) (lo : nat) (hi : option nat) (r : regex)
| Group (r : regex)
| Backref
| WordB.

(** A position in the subject: the character before it, what is left, how
    many characters were consumed since the attempt began, and what group 1
    captured. *)
Record pos := {
  before : option ascii;
  rest : list ascii;
  idx : nat;
  cap : option (list ascii);
}.

Definition setCap (w : option (list ascii)) (x : pos) : pos :=
  {| before := before x; rest := rest x; idx := idx x; cap := w |}.

Definition code (c : ascii) : N := N_of_ascii c.

Definition between (lo hi : N) (c : ascii) : bool :=
  ((lo <=? code c) && (code c <=? hi))%N.

Definition isDigit (c : ascii) : bool := between 48 57 c.
Definition isUpper (c : ascii) : bool := between 65 90 c.
Definition isLower (c : ascii) : bool := between 97 122 c.
Definition isLetter (c : ascii) : bool := isUpper c || isLower c.
Definition isAlnum (c : ascii) : bool := isLetter c || isDigit c.
(** [\w] *)
Definition isWord (c : ascii) : bool := isAlnum c || (code c =? 95)%N.
(** [\s] below 256: tab, LF, VT, FF, CR, space, no-break space. *)
Definition isSpace (c : ascii) : bool :=
  between 9 13 c || (code c =? 32)%N || (code c =? 160)%N.
(** [.] without the [s] and [u] flags takes one code unit that is not a
    line terminator.  Below U+0100 the line terminators are LF and CR; the
    other two, U+2028 and U+2029, are outside [string]. *)
Definition isDot (c : ascii) : bool :=
  negb ((code c =? 10)%N || (code c =? 13)%N).

Definition isWordOpt (c : option ascii) : bool :=
  match c with
  | Some a => isWord a
  | None => false
  end.

(** Consume the word [w] at [x], if it is there. *)
Fixpoint consume (w : list ascii) (x : pos) : option pos :=
  match w with
  | [] => Some x
  | a :: w' =>
      match rest x with
      | c :: tl =>
          if Ascii.eqb a c
          then consume w' {| before := Some c; rest := tl; idx := S (idx x); cap := cap x |}
          else None
      | [] => None
      end
  end.

Fixpoint hasGroup (r : regex) : bool :=
  match r with
  | Group _ => true
  | Seq r1 r2 | Alt r1 r2 => hasGroup r1 || hasGroup r2
  | Rep _ _ _ r1 => hasGroup r1
  | _ => false
  end.

(** A quantifier [body{lo,hi}], greedy or lazy, followed by [k].  Each round
    first clears the capture when the body holds the group ([clear]), and a
    round that consumed nothing once the minimum is met is refused, so that
    [lo + length (rest x)] rounds are all there can be; [fuel] counts them
    down. *)
Fixpoint rounds (body : pos -> (pos -> option pos) -> option pos) (clear greedy : bool)
    (k : pos -> option pos) (fuel lo : nat) (hi : option nat) (x : pos) {struct fuel}
    : option pos :=
  match fuel with
  | O => None
  | S fuel' =>
      match hi with
      | Some O => k x
      | _ =>
          let x0 := if clear then setCap None x else x in
          let again :=
            body x0 (fun y =>
              if (lo =? 0)%nat && (idx y =? idx x)%nat then None
              else rounds body clear greedy k fuel' (pred lo) (option_map pred hi) y) in
          if (0 <? lo)%nat then again
          else if greedy then
            match again with
            | Some y => Some y
            | None => k x
            end
          else
            match k x with
            | Some y => Some y
            | None => again
            end
      end
  end.

(** The matcher, in continuation-passing style: [run r x k] tries the ways
    [r] can match at [x] in priority order and hands each end position to
    [k] until [k] succeeds. *)
Fixpoint run (r : regex) (x : pos) (k : pos -> option pos) {struct r} : option pos :=
  match r with
  | Eps => k x
  | Chr p =>
      match rest x with
      | c :: tl =>
          if p c
          then k {| before := Some c; rest := tl; idx := S (idx x); cap := cap x |}
          else None
      | [] => None
      end
  | Seq r1 r2 => run r1 x (fun y => run r2 y k)
  | Alt r1 r2 =>
      match run r1 x k with
      | Some y => Some y
      | None => run r2 x k
      end
  | Group r1 =>
      run r1 x (fun y => k (setCap (Some (firstn (idx y - idx x) (rest x))) y))
  | Backref =>
      match cap x with
      | None => k x
      | Some w =>
          match consume w x with
          | Some y => k y
          | None => None
          end
      end
  | WordB =>
      if xorb (isWordOpt (before x)) (isWordOpt (hd_error (rest x))) then k x else None
  | Rep greedy lo hi r1 =>
      rounds (run r1) (hasGroup r1) greedy k (lo + length (rest x) + 1) lo hi x
  end.

(** One attempt at a given position: the length of the match found. *)
Definition exec (r : regex) (prev : option ascii) (subject : list ascii) : option nat :=
  match run r {| before := prev; rest := subject; idx := 0; cap := None |} Some with
  | Some y => Some (idx y)
  | None => None
  end.

(** The successive matches of a [/g] pattern, left to right: after a match
    the scan resumes at its end (one further on when it was empty). *)
Fixpoint scan (r : regex) (skip : nat) (prev : option ascii) (subject : list ascii)
    {struct subject} : list (list ascii) :=
  match skip with
  | S n =>
      match subject with
      | [] => []
      | c :: tl => scan r n (Some c) tl
      end
  | O =>
      match exec r prev subject with
      | Some n =>
          firstn n subject ::
            match subject with
            | [] => []
            | c :: tl => scan r (pred n) (Some c) tl
            end
      | None =>
          match subject with
          | [] => []
          | c :: tl => scan r 0 (Some c) tl
          end
      end
  end.

(** [subject.match(r)] for a global [r]: [None] is [null]. *)
Definition matchAll (r : regex) (subject : string) : option (list (list ascii)) :=
  match scan r 0 None (list_ascii_of_string subject) with
  | [] => None
  | ms => Some ms
  end.

(** [subject.replace(/[^...]/g, '')] for a class [keep]. *)
Definition keepOnly (keep : ascii -> bool) (subject : string) : list ascii :=
  List.filter keep (list_ascii_of_string subject).

(** *** Pattern syntax *)

Definition chr (c : ascii) : regex := Chr (Ascii.eqb c).
(** A letter under the [i] flag. *)
Definition chrI (c : ascii) : regex :=
  Chr (fun a => Ascii.eqb (Js.lowerChar a) (Js.lowerChar c)).

Fixpoint seqOf (f : ascii -> regex) (s : string) : regex :=
  match s with
  | EmptyString => Eps
  | String c EmptyString => f c
  | String c s' => Seq (f c) (seqOf f s')
  end.

Definition lit (s : string) : regex := seqOf chr s.
Definition litI (s : string) : regex := seqOf chrI s.

Fixpoint alts (rs : list regex) : regex :=
  match rs with
  | [] => Eps
  | [r] => r
  | r :: rs' => Alt r (alts rs')
  end.

Definition opt (r : regex) : regex := Rep true 0 (Some 1%nat) r.
Definition plus (r : regex) : regex := Rep true 1 None r.
Definition plusLazy (r : regex) : regex := Rep false 1 None r.
Definition atLeast (n : nat) (r : regex) : regex := Rep true n None r.

(** [y] lies further along the subject [x] is in. *)
Definition onward (x y : pos) : Prop :=
  (idx y + length (rest y) = idx x + length (rest x))%nat /\ (idx x <= idx y)%nat.

(** A matcher that consults its continuation only further along. *)
Definition steady (body : pos -> (pos -> option pos) -> option pos) : Prop :=
  forall x k k', (forall y, onward x y -> k y = k' y) -> body x k = body x k'.

End Regex.

(** ** [src/moderation/contentModerator.js] *)

Module ContentModerator.

Import Regex.

(** [config.contentModeration]. *)
Record Config := {
  enabled : bool;
  maxMessageLength : Z;
  forbiddenWords : list string;
}.

(** The configuration the environment schema defaults to. *)
Definition defaultConfig : Config :=
  {| enabled := true; maxMessageLength := 2000;
     forbiddenWords := ["spam"; "scam"; "malware"] |}.

(** [new Set(config.contentModeration.forbiddenWords)]: the words in
    insertion order, each once. *)
Fixpoint newSet (ws : list string) (seen : list string) : list string :=
  match ws with
  | [] => []
  | w :: ws' =>
      if Js.includes seen w then newSet ws' seen
      else w :: newSet ws' (w :: seen)
  end.

(** [/(.)\1{4,}/g], [/(https?:\/\/[^\s]+){3,}/g], [/([A-Za-z0-9])\1{10,}/g] *)
Definition spamPatterns : list regex :=
  [ Seq (Group (Chr isDot)) (atLeast 4 Backref);
    atLeast 3 (Group (Seq (lit "http") (Seq (opt (chr "s"))
                 (Seq (lit "://") (plus (Chr (fun c => negb (isSpace c))))))));
    Seq (Group (Chr isAlnum)) (atLeast 10 Backref) ].

(** [/\b(?:buy|sell|discount|free|money|cash|bitcoin|eth|crypto)\b/gi],
    [/\b(?:click|link|url|website|join|subscribe)\b/gi] *)
Definition suspiciousPatterns : list regex :=
  [ Seq WordB (Seq (alts (map litI ["buy"; "sell"; "discount"; "free"; "money"; "cash";
                                     "bitcoin"; "eth"; "crypto"])) WordB);
    Seq WordB (Seq (alts (map litI ["click"; "link"; "url"; "website"; "join";
                                     "subscribe"])) WordB) ].

(** [/<@!?\d+>/g] *)
Definition mentionPattern : regex :=
  Seq (lit "<@") (Seq (opt (chr "!")) (Seq (plus (Chr isDigit)) (chr ">"))).

(** [/<a?:.+?:\d+>/g] *)
Definition emojiPattern : regex :=
  Seq (chr "<") (Seq (opt (chr "a")) (Seq (chr ":") (Seq (plusLazy (Chr isDot))
    (Seq (chr ":") (Seq (plus (Chr isDigit)) (chr ">")))))).

(** The module-level [moderationRules]: only the word set can change. *)
Record Rules := {
  forbidden : list string;
}.

Definition moderationRules (cfg : Config) : Rules :=
  {| forbidden := newSet (forbiddenWords cfg) [] |}.

Inductive Severity := low | medium | high | critical.

Definition severityName (s : Severity) : string :=
  match s with
  | low => "low"
  | medium => "medium"
  | high => "high"
  | critical => "critical"
  end.

Record ModerationResult := {
  isApproved : bool;
  reason : string;
  severity : Severity;
  actions : list string;
  timestamp : Z;
}.

(** [new ModerationResult(isApproved, reason, severity, actions)] at clock
    reading [now]; a missing [actions] is [[]]. *)
Definition result (now : Z) (ok : bool) (why : string) (sev : Severity)
    (acts : list string) : ModerationResult :=
  {| isApproved := ok; reason := why; severity := sev; actions := acts; timestamp := now |}.

(** Property and method accesses on the [content] argument, which the
    caller may have filled with any value. *)
Definition typeError (what : string) : string := "TypeError: " +:+ what.

(** The name of a value that has no properties, as the error message for
    reading one of them prints it. *)
Definition nullish (v : Js.value) : option string :=
  match v with
  | Js.Undefined => Some "undefined"
  | Js.Null => Some "null"
  | _ => None
  end.

(** [content.length]: [undefined] and [null] throw, a string or an array
    has a length, and on anything else the property is [undefined], here
    [None]. *)
Definition getLength (content : Js.value) : Js.completion (option Z) :=
  match content with
  | Js.Undefined | Js.Null =>
      Js.Throw (typeError ("Cannot read properties of " +:+ default "" (nullish content) +:+
                           " (reading 'length')"))
  | Js.Str s => Js.Return (Some (Z.of_nat (String.length s)))
  | Js.Array xs => Js.Return (Some (Z.of_nat (length xs)))
  | _ => Js.Return None
  end.

(** The receiver of a string method ([toLowerCase], [match], [replace],
    [substring]), held in the variable [receiver]: anything but a string
    throws, with the message of the engine for that variable and method. *)
Definition asString (receiver method : string) (content : Js.value) : Js.completion string :=
  match content with
  | Js.Str s => Js.Return s
  | Js.Undefined | Js.Null =>
      Js.Throw (typeError ("Cannot read properties of " +:+ default "" (nullish content) +:+
                           " (reading '" +:+ method +:+ "')"))
  | _ => Js.Throw (typeError (receiver +:+ "." +:+ method +:+ " is not a function"))
  end.

(** [a > b] where [a] may be [undefined] (and then compares false). *)
Definition gtNum (a : option Z) (b : Z) : bool :=
  match a with
  | Some n => (b <? n)%Z
  | None => false
  end.

Section Rules.

Variable cfg : Config.
Variable rules : Rules.
Variable now : Z.

Definition checkMessageLength (content : Js.value) : Js.completion ModerationResult :=
  let maxLength := maxMessageLength cfg in
  let! len := getLength content in
  if gtNum len maxLength then
    Js.Return (result now false
      ("Message exceeds maximum length of " +:+ Js.numToString maxLength +:+ " characters")
      medium ["truncate"; "warn"])
  else Js.Return (result now true "Message length acceptable" low []).

Definition checkForbiddenWords (content : Js.value) : Js.completion ModerationResult :=
  let! s := asString "content" "toLowerCase" content in
  let lowerContent := Js.toLowerCase s in
  let foundWords := List.filter (fun word => Js.str_includes lowerContent word)
                                (forbidden rules) in
  if (0 <? length foundWords)%nat then
    let sev := if (3 <=? length foundWords)%nat then high else medium in
    let acts := match sev with
                | high => ["delete"; "warn"; "timeout"]
                | _ => ["warn"]
                end in
    Js.Return (result now false
      ("Forbidden words detected: " +:+ Js.join ", " foundWords) sev acts)
  else Js.Return (result now true "No forbidden words detected" low []).

(** The [for] loop over [spamPatterns], returning at the first pattern
    that matches. *)
Fixpoint spamLoop (patterns : list regex) (s : string) : ModerationResult :=
  match patterns with
  | [] => result now true "No spam patterns detected" low []
  | pattern :: patterns' =>
      match matchAll pattern s with
      | Some matches =>
          if (0 <? length matches)%nat
          then result now false "Spam pattern detected" medium ["warn"; "delete"]
          else spamLoop patterns' s
      | None => spamLoop patterns' s
      end
  end.

Definition checkSpamPatterns (content : Js.value) : Js.completion ModerationResult :=
  let! s := asString "content" "match" content in
  Js.Return (spamLoop spamPatterns s).

Fixpoint suspiciousLoop (patterns : list regex) (lowerContent : string) (count : nat) : nat :=
  match patterns with
  | [] => count
  | pattern :: patterns' =>
      match matchAll pattern lowerContent with
      | Some matches => suspiciousLoop patterns' lowerContent (count + length matches)
      | None => suspiciousLoop patterns' lowerContent count
      end
  end.

Definition checkSuspiciousContent (content : Js.value) : Js.completion ModerationResult :=
  let! s := asString "content" "toLowerCase" content in
  let lowerContent := Js.toLowerCase s in
  let suspiciousCount := suspiciousLoop suspiciousPatterns lowerContent 0 in
  if (3 <=? suspiciousCount)%nat then
    Js.Return (result now false "Suspicious content detected" medium ["flag"; "warn"])
  else Js.Return (result now true "Content appears normal" low []).

Definition checkExcessiveMentions (content : Js.value) : Js.completion ModerationResult :=
  let! s := asString "content" "match" content in
  match matchAll mentionPattern s with
  | Some mentions =>
      if (5 <? length mentions)%nat
      then Js.Return (result now false "Excessive mentions detected" medium ["warn"; "delete"])
      else Js.Return (result now true "Mention count acceptable" low [])
  | None => Js.Return (result now true "Mention count acceptable" low [])
  end.

Definition checkExcessiveEmojis (content : Js.value) : Js.completion ModerationResult :=
  let! s := asString "content" "match" content in
  match matchAll emojiPattern s with
  | Some emojis =>
      if (10 <? length emojis)%nat
      then Js.Return (result now false "Excessive emojis detected" low ["warn"])
      else Js.Return (result now true "Emoji count acceptable" low [])
  | None => Js.Return (result now true "Emoji count acceptable" low [])
  end.

(** [upperCase.length / letters.length > 0.7]: for lengths a string can
    have, the double quotient exceeds the double 0.7 exactly when
    [10 * upper > 7 * letters]. *)
Definition checkCapsSpam (content : Js.value) : Js.completion ModerationResult :=
  let! s := asString "content" "replace" content in
  let letters := keepOnly isLetter s in
  let upperCase := keepOnly isUpper s in
  if (10 <? length letters)%nat && (7 * length letters <? 10 * length upperCase)%nat then
    Js.Return (result now false "Excessive capitalization detected" low ["warn"])
  else Js.Return (result now true "Capitalization acceptable" low []).

(** The array literal [checks]: the seven rules, evaluated in order. *)
Definition runChecks (content : Js.value) : Js.completion (list ModerationResult) :=
  let! c1 := checkMessageLength content in
  let! c2 := checkForbiddenWords content in
  let! c3 := checkSpamPatterns content in
  let! c4 := checkSuspiciousContent content in
  let! c5 := checkExcessiveMentions content in
  let! c6 := checkExcessiveEmojis content in
  let! c7 := checkCapsSpam content in
  Js.Return [c1; c2; c3; c4; c5; c6; c7].

Definition severityOrder (s : Severity) : Z :=
  match s with
  | low => 1
  | medium => 2
  | high => 3
  | critical => 4
  end.

(** [Array.prototype.sort(compare)]: a stable sort, here by insertion.
    An element moves behind another only when [compare] is positive. *)
Fixpoint insertBy {A} (compare : A -> A -> Z) (x : A) (l : list A) : list A :=
  match l with
  | [] => [x]
  | y :: l' =>
      if (0 <? compare x y)%Z then y :: insertBy compare x l' else x :: y :: l'
  end.

Fixpoint sortBy {A} (compare : A -> A -> Z) (l : list A) : list A :=
  match l with
  | [] => []
  | x :: l' => insertBy compare x (sortBy compare l')
  end.

Definition bySeverity (a b : ModerationResult) : Z :=
  (severityOrder (severity b) - severityOrder (severity a))%Z.

(** The body of the [try] block: the verdict and what it logged. *)
Definition moderateBody (content : Js.value) (userId channelId guildId : string)
    : Js.completion (ModerationResult * list Logger.call) :=
  if negb (enabled cfg) then
    Js.Return (result now true "Content moderation disabled" low [], [])
  else
    let! checks := runChecks content in
    let violations := List.filter (fun check => negb (isApproved check)) checks in
    if (length violations =? 0)%nat then
      Js.Return (result now true "Content approved" low [], [])
    else
      match sortBy bySeverity violations with
      | [] => Js.Throw (typeError "Cannot read properties of undefined (reading 'severity')")
      | worstViolation :: _ =>
          let! s := asString "content" "substring" content in
          let! len := getLength content in
          Js.Return
            (worstViolation,
             [Logger.SecurityEvent "CONTENT_MODERATED" (severityName (severity worstViolation))
                [("userId", Js.Str userId); ("channelId", Js.Str channelId);
                 ("guildId", Js.Str guildId);
                 ("content", Js.Str (Js.substring0 100 s +:+
                                      (if gtNum len 100 then "..." else "")));
                 ("reason", Js.Str (reason worstViolation));
                 ("actions", Js.Array (actions worstViolation))]])
      end.

(** [moderateContent(content, userId, channelId, guildId)]. *)
Definition moderateContent (content : Js.value) (userId channelId guildId : string)
    (tr : list Logger.call) : ModerationResult * list Logger.call :=
  match moderateBody content userId channelId guildId with
  | Js.Return (verdict, logged) => (verdict, tr ++ logged)
  | Js.Throw error =>
      (result now true "Moderation check failed" low [],
       tr ++ [Logger.Error "Content moderation error:" error])
  end.

End Rules.

(** *** [moderateUserBehavior] *)

Record BehaviorResult := {
  shouldModerate : bool;
  behaviorReason : string;
  behaviorActions : option (list string);
}.

(** [const userActions = new Map()], evaluated at every call. *)
Definition newUserActions : gmap string (list Z) := ∅.

(** [if (!userActions.has(key)) userActions.set(key, [])] followed by
    [userActions.get(key)]: the history the call works from. *)
Definition actionsOf (userActions : gmap string (list Z)) (key : string) : list Z :=
  let userActions1 :=
    match userActions !! key with
    | Some _ => userActions
    | None => <[key := []]> userActions
    end in
  default [] (userActions1 !! key).

(** [moderateUserBehavior(userId, guildId, action)] at clock reading
    [now].  The map is local to the call, so what the last two statements
    store in it is dropped on return. *)
Definition moderateUserBehavior (now : Z) (userId guildId action : string)
    (tr : list Logger.call) : BehaviorResult * list Logger.call :=
  let userActions := newUserActions in
  let key := userId +:+ "-" +:+ guildId in
  let windowMs := 60000%Z in
  let actions := actionsOf userActions key in
  let recentActions := List.filter (fun time => (now - time <? windowMs)%Z) actions in
  if (10 <? length recentActions)%nat then
    ({| shouldModerate := true; behaviorReason := "Excessive activity detected";
        behaviorActions := Some ["timeout"; "warn"] |},
     tr ++ [Logger.SecurityEvent "USER_BEHAVIOR_MODERATED" "medium"
              [("userId", Js.Str userId); ("guildId", Js.Str guildId);
               ("action", Js.Str action);
               ("actionCount", Js.Number (Z.of_nat (length recentActions)))]])
  else
    ({| shouldModerate := false; behaviorReason := "User behavior acceptable";
        behaviorActions := None |},
     tr).

(** One call: its clock reading and its arguments. *)
Record BehaviorCall := {
  at_ : Z;
  who : string;
  guild : string;
  what : string;
}.

Fixpoint behaviorRun (calls : list BehaviorCall) (tr : list Logger.call)
    : list BehaviorResult * list Logger.call :=
  match calls with
  | [] => ([], tr)
  | c :: calls' =>
      let '(r, tr1) := moderateUserBehavior (at_ c) (who c) (guild c) (what c) tr in
      let '(rs, tr2) := behaviorRun calls' tr1 in
      (r :: rs, tr2)
  end.

End ContentModerator.

(** ** [src/index.js] *)

Module App.


Definition error (msg err : string) (st : Auth.State) : Auth.State :=
  {| Auth.apiKeys := Auth.apiKeys st; Auth.users := Auth.users st;
     Auth.log := Auth.log st ++ [Logger.Error msg err] |}.


End App.

(** ** [src/auth/index.js]: the Express middlewares *)

Module Middleware.

(** [a || b]. *)
Definition orElse (a b : Js.value) : Js.value := if Js.truthy a then a else b.

(** A value interpolated into a template string. *)
Definition toString (v : Js.value) : string :=
  match v with
  | Js.Undefined => "undefined"
  | Js.Null => "null"
  | Js.Bool true => "true"
  | Js.Bool false => "false"
  | Js.Number n => Js.numToString n
  | Js.Str s => s
  | Js.Array xs => Js.join "," xs
  | Js.Object => "[object Object]"
  end.

(** The parts of an Express request the middlewares read and write.
    [bodyBotId] is [None] when no body parser has run and [req.body] is
    [undefined]. *)
Record HttpRequest := {
  headerApiKey : Js.value;
  queryApiKey : Js.value;
  paramsBotId : Js.value;
  bodyBotId : option Js.value;
  queryBotId : Js.value;
  user : option Auth.ReqUser;
  ip : string;
  botId : Js.value;
}.

Definition setUser (u : Auth.ReqUser) (req : HttpRequest) : HttpRequest :=
  {| headerApiKey := headerApiKey req; queryApiKey := queryApiKey req;
     paramsBotId := paramsBotId req; bodyBotId := bodyBotId req;
     queryBotId := queryBotId req; user := Some u; ip := ip req; botId := botId req |}.

Definition setBotId (b : Js.value) (req : HttpRequest) : HttpRequest :=
  {| headerApiKey := headerApiKey req; queryApiKey := queryApiKey req;
     paramsBotId := paramsBotId req; bodyBotId := bodyBotId req;
     queryBotId := queryBotId req; user := user req; ip := ip req; botId := b |}.

Definition logSecurity (event severity : string) (d : Logger.details) (st : Auth.State)
    : Auth.State :=
  {| Auth.apiKeys := Auth.apiKeys st; Auth.users := Auth.users st;
     Auth.log := Auth.log st ++ [Logger.SecurityEvent event severity d] |}.

(** [authenticateApiKey(req, res, next)] at clock reading [now]. *)
Definition authenticateApiKey (now : Z) (req : HttpRequest) (st : Auth.State)
    : Auth.Outcome * HttpRequest * Auth.State :=
  let apiKey := orElse (headerApiKey req) (queryApiKey req) in
  if negb (Js.truthy apiKey) then
    (Auth.Respond 401 [("error", Js.Str "API key required");
                       ("code", Js.Str "MISSING_API_KEY")], req, st)
  else
    match Auth.validateApiKey now apiKey st with
    | (None, st1) =>
        (Auth.Respond 401 [("error", Js.Str "Invalid API key");
                           ("code", Js.Str "INVALID_API_KEY")],
         req,
         logSecurity "INVALID_API_KEY" "warning" [("ip", Js.Str (ip req))] st1)
    | (Some keyData, st1) =>
        (Auth.Next,
         setUser {| Auth.ru_id := Auth.p_userId keyData;
                    Auth.ru_permissions := Auth.p_permissions keyData;
                    Auth.ru_authType := "api_key" |} req,
         st1)
    end.

(** The middleware [requirePermission(permission)] returns. *)
Definition requirePermission (permission : string) (req : HttpRequest) (st : Auth.State)
    : Auth.Outcome * Auth.State :=
  match user req with
  | None =>
      (Auth.Respond 401 [("error", Js.Str "Authentication required");
                         ("code", Js.Str "AUTHENTICATION_REQUIRED")], st)
  | Some u =>
      if negb (Auth.hasPermission (Auth.ru_permissions u) permission) then
        (Auth.Respond 403 [("error", Js.Str "Insufficient permissions");
                           ("code", Js.Str "INSUFFICIENT_PERMISSIONS");
                           ("requiredPermission", Js.Str permission)],
         logSecurity "PERMISSION_DENIED" "warning"
           [("userId", Js.Str (Auth.ru_id u));
            ("requiredPermission", Js.Str permission);
            ("userPermissions", Auth.ru_permissions u);
            ("ip", Js.Str (ip req))] st)
      else (Auth.Next, st)
  end.

(** [req.params.botId || req.body.botId || req.query.botId]: reading
    [botId] off an undefined [req.body] throws. *)
Definition findBotId (req : HttpRequest) : Js.completion Js.value :=
  if Js.truthy (paramsBotId req) then Js.Return (paramsBotId req)
  else
    match bodyBotId req with
    | None => Js.Throw "TypeError: Cannot read properties of undefined (reading 'botId')"
    | Some b => Js.Return (orElse b (queryBotId req))
    end.

(** [requireBotAccess(req, res, next)]. *)
Definition requireBotAccess (req : HttpRequest) : Js.completion (Auth.Outcome * HttpRequest) :=
  let! b := findBotId req in
  if negb (Js.truthy b) then
    Js.Return (Auth.Respond 400 [("error", Js.Str "Bot ID required");
                                 ("code", Js.Str "MISSING_BOT_ID")], req)
  else
    match user req with
    | None => Js.Throw "TypeError: Cannot read properties of undefined (reading 'permissions')"
    | Some u =>
        if negb (Auth.hasPermission (Auth.ru_permissions u) "admin") &&
           negb (Auth.hasPermission (Auth.ru_permissions u) ("bot:" +:+ toString b)) then
          Js.Return (Auth.Respond 403 [("error", Js.Str "Access denied to bot");
                                       ("code", Js.Str "BOT_ACCESS_DENIED");
                                       ("botId", b)], req)
        else Js.Return (Auth.Next, setBotId b req)
    end.

(** The limiter's view of a request: [req.user ? req.user.id : req.ip]. *)
Definition toLimiterRequest (req : HttpRequest) : Auth.Request :=
  {| Auth.user := user req; Auth.ip := ip req |}.

(** Requests of any callers through one limiter, one clock reading each. *)
Fixpoint rateLimiterServe (windowMs maxRequests : Z) (calls : list (Auth.Request * Z))
    (lm : Auth.Limiter) : list Auth.Outcome * Auth.Limiter :=
  match calls with
  | [] => ([], lm)
  | (req, t) :: calls' =>
      let '(o, lm1) := Auth.rateLimiter windowMs maxRequests req t lm in
      let '(os, lm2) := rateLimiterServe windowMs maxRequests calls' lm1 in
      (o :: os, lm2)
  end.

(** The clock readings of the calls a run admitted. *)
Fixpoint admitted (ts : list Z) (outs : list Auth.Outcome) : list Z :=
  match ts, outs with
  | t :: ts', Auth.Next :: outs' => t :: admitted ts' outs'
  | _ :: ts', _ :: outs' => admitted ts' outs'
  | _, _ => []
  end.

(** Clock readings that never run backwards, starting no earlier than
    [from]. *)
Fixpoint ascending (from : Z) (ts : list Z) : Prop :=
  match ts with
  | [] => True
  | t :: ts' => (from <= t)%Z /\ ascending t ts'
  end.

End Middleware.

(** ** [src/discord/botManager.js]: sequences of calls, and sending *)

Module Dispatch.

(** A call into the registry from outside, with how the platform settles
    the login or the destroy it leads to. *)
Inductive Op :=
| Start (login : option string) (now : Z) (botConfig : BotManager.BotConfig)
| Stop (destroy : option string) (botId : string).

Definition perform (op : Op) (st : BotManager.State) : BotManager.State :=
  match op with
  | Start login now botConfig => snd (BotManager.startBot login now botConfig st)
  | Stop destroy botId => snd (BotManager.stopBot destroy botId st)
  end.

Definition performAll (ops : list Op) (st : BotManager.State) : BotManager.State :=
  fold_left (fun st op => perform op st) ops st.

(** What every registry reachable from the empty one satisfies. *)
Definition wellFormed (st : BotManager.State) : Prop :=
  (forall i b, BotManager.activeBots st !! i = Some b ->
     BotManager.id (BotManager.config b) = i /\
     (BotManager.client b < BotManager.clients st)%nat /\
     BotManager.isActive b = true) /\
  (forall i j bi bj,
     BotManager.activeBots st !! i = Some bi -> BotManager.activeBots st !! j = Some bj ->
     BotManager.client bi = BotManager.client bj -> i = j).

(** What discord.js hands back: a channel, and the message it created. *)
Record Channel := {
  channelGuildId : option string;
}.

Record Message := {
  messageId : string;
  messageContent : string;
  messageChannelId : string;
  messageGuildId : option string;
  createdTimestamp : Z;
}.

(** The platform, as far as [sendMessage] uses it: [channels.fetch] and
    [channel.send] may reject, and [fetch] may resolve with nothing;
    [client.user.id] is the bot's own user id. *)
Record Platform := {
  fetchChannel : BotManager.Client -> string -> Js.completion (option Channel);
  send : string -> Js.value -> Js.completion Message;
  clientUserId : BotManager.Client -> string;
}.

(** The requests a call made to the platform, in order. *)
Inductive PlatformCall :=
| Fetched (c : BotManager.Client) (channelId : string)
| Sent (channelId : string) (content : Js.value).

Definition optStr (s : option string) : Js.value :=
  match s with
  | Some x => Js.Str x
  | None => Js.Undefined
  end.

Definition optNum (n : option Z) : Js.value :=
  match n with
  | Some x => Js.Number x
  | None => Js.Undefined
  end.

Definition logError (event err : string) (st : BotManager.State) : BotManager.State :=
  {| BotManager.activeBots := BotManager.activeBots st;
     BotManager.clients := BotManager.clients st;
     BotManager.log := BotManager.log st ++ [Logger.DiscordError event err] |}.

(** The body of the [try] block of [sendMessage]: the result, the event it
    logged and the platform calls it made before returning or throwing.  The
    guild, channel and user ids [logDiscordEvent] takes by position are
    recorded as the first three fields. *)
Definition sendBody (platform : Platform) (botId channelId : string) (content : Js.value)
    (st : BotManager.State)
    : Js.completion (Message * list Logger.call) * list PlatformCall :=
  match BotManager.activeBots st !! botId with
  | None => (Js.Throw ("Bot " +:+ botId +:+ " is not running"), [])
  | Some botInstance =>
      let c := BotManager.client botInstance in
      match fetchChannel platform c channelId with
      | Js.Throw e => (Js.Throw e, [Fetched c channelId])
      | Js.Return None =>
          (Js.Throw ("Channel " +:+ channelId +:+ " not found"), [Fetched c channelId])
      | Js.Return (Some channel) =>
          match send platform channelId content with
          | Js.Throw e => (Js.Throw e, [Fetched c channelId; Sent channelId content])
          | Js.Return message =>
              (let! len := ContentModerator.getLength content in
               Js.Return
                 (message,
                  [Logger.DiscordEvent "MESSAGE_SENT"
                     [("guildId", optStr (channelGuildId channel));
                      ("channelId", Js.Str channelId);
                      ("userId", Js.Str (clientUserId platform c));
                      ("botId", Js.Str botId);
                      ("messageId", Js.Str (messageId message));
                      ("contentLength", optNum len)]]),
               [Fetched c channelId; Sent channelId content])
          end
      end
  end.

(** [sendMessage(botId, channelId, content, options)], awaited to
    completion. *)
Definition sendMessage (platform : Platform) (botId channelId : string) (content : Js.value)
    (st : BotManager.State)
    : Js.completion Message * BotManager.State * list PlatformCall :=
  match sendBody platform botId channelId content st with
  | (Js.Return (message, logged), calls) =>
      (Js.Return message,
       {| BotManager.activeBots := BotManager.activeBots st;
          BotManager.clients := BotManager.clients st;
          BotManager.log := BotManager.log st ++ logged |},
       calls)
  | (Js.Throw error, calls) =>
      (Js.Throw error, logError "SEND_MESSAGE_ERROR" error st, calls)
  end.

End Dispatch.

(** ** The tool handlers of [DiscordMCPServer] *)

Module Server.

(** What [handleSendMessage] resolves with. *)
Inductive SendOutcome :=
| SendRefused (reason : string) (severity : ContentModerator.Severity) (actions : list string)
| SendDone (message : Dispatch.Message).

(** Everything the handlers change: the registry, the security log
    [moderateContent] writes to, and the calls made to the platform. *)
Record World := {
  bots : BotManager.State;
  securityLog : list Logger.call;
  platformCalls : list Dispatch.PlatformCall;
}.

(** [handleSendMessage(args)] with [args = { botId, channelId, content }];
    the two ids are strings, as the tool schema declares them. *)
Definition handleSendMessage (cfg : ContentModerator.Config) (rules : ContentModerator.Rules)
    (platform : Dispatch.Platform) (now : Z) (botId channelId : string) (content : Js.value)
    (w : World) : Js.completion SendOutcome * World :=
  if negb (Js.truthy (Js.Str botId)) || negb (Js.truthy (Js.Str channelId)) ||
     negb (Js.truthy content) then
    (Js.Throw "Missing required parameters: botId, channelId, content", w)
  else
    let '(moderationResult, log1) :=
      ContentModerator.moderateContent cfg rules now content "mcp-user" channelId
        "unknown-guild" (securityLog w) in
    if negb (ContentModerator.isApproved moderationResult) then
      (Js.Return (SendRefused (ContentModerator.reason moderationResult)
                              (ContentModerator.severity moderationResult)
                              (ContentModerator.actions moderationResult)),
       {| bots := bots w; securityLog := log1; platformCalls := platformCalls w |})
    else
      let '(sent, bots1, calls) := Dispatch.sendMessage platform botId channelId content (bots w) in
      (match sent with
       | Js.Return message => Js.Return (SendDone message)
       | Js.Throw e => Js.Throw e
       end,
       {| bots := bots1; securityLog := log1; platformCalls := platformCalls w ++ calls |}).

(** [handleModerateContent(args)]: the verdict, with the ids defaulted. *)
Definition handleModerateContent (cfg : ContentModerator.Config) (rules : ContentModerator.Rules)
    (now : Z) (content : Js.value) (userId channelId guildId : option string)
    (tr : list Logger.call) : Js.completion ContentModerator.ModerationResult * list Logger.call :=
  if negb (Js.truthy content) then (Js.Throw "Missing required parameter: content", tr)
  else
    let '(verdict, tr1) :=
      ContentModerator.moderateContent cfg rules now content
        (default "mcp-user" userId) (default "unknown-channel" channelId)
        (default "unknown-guild" guildId) tr in
    (Js.Return verdict, tr1).

End Server.

(** ** [src/config/index.js]: parsing the environment *)

Module Config.

(** [s.split(',')]. *)
Fixpoint split (s : string) : list string :=
  match s with
  | EmptyString => [""]
  | String c s' =>
      if Ascii.eqb c ","
      then "" :: split s'
      else
        match split s' with
        | w :: ws => String c w :: ws
        | [] => [String c ""]
        end
  end.

(** [s.trim()]: white space and line terminators go, which below 256 are
    the characters [\s] matches. *)
Fixpoint trimStart (s : string) : string :=
  match s with
  | EmptyString => EmptyString
  | String c s' => if Regex.isSpace c then trimStart s' else s
  end.

Fixpoint trimEnd (s : string) : string :=
  match s with
  | EmptyString => EmptyString
  | String c s' =>
      match trimEnd s' with
      | EmptyString => if Regex.isSpace c then EmptyString else String c EmptyString
      | r => String c r
      end
  end.

Definition trim (s : string) : string := trimEnd (trimStart s).

(** What [trimStart] returns: nothing, or a string that starts with a
    character that is not white space. *)
Definition headed (s : string) : Prop :=
  match s with
  | EmptyString => True
  | String c _ => Regex.isSpace c = false
  end.

(** [parseForbiddenWords(wordsString)]. *)
Definition parseForbiddenWords (wordsString : string) : list string :=
  List.filter (fun word => (0 <? String.length word)%nat)
    (map (fun word => Js.toLowerCase (trim word)) (split wordsString)).

(** [intentMap]: each name with [1 << n]. *)
Definition intentMap : list (string * Z) :=
  [("GUILDS", Z.shiftl 1 0);
   ("GUILD_MEMBERS", Z.shiftl 1 1);
   ("GUILD_BANS", Z.shiftl 1 2);
   ("GUILD_EMOJIS_AND_STICKERS", Z.shiftl 1 3);
   ("GUILD_INTEGRATIONS", Z.shiftl 1 4);
   ("GUILD_WEBHOOKS", Z.shiftl 1 5);
   ("GUILD_INVITES", Z.shiftl 1 6);
   ("GUILD_VOICE_STATES", Z.shiftl 1 7);
   ("GUILD_PRESENCES", Z.shiftl 1 8);
   ("GUILD_MESSAGES", Z.shiftl 1 9);
   ("GUILD_MESSAGE_REACTIONS", Z.shiftl 1 10);
   ("GUILD_MESSAGE_TYPING", Z.shiftl 1 11);
   ("DIRECT_MESSAGES", Z.shiftl 1 12);
   ("DIRECT_MESSAGE_REACTIONS", Z.shiftl 1 13);
   ("DIRECT_MESSAGE_TYPING", Z.shiftl 1 14);
   ("MESSAGE_CONTENT", Z.shiftl 1 15);
   ("GUILD_SCHEDULED_EVENTS", Z.shiftl 1 16);
   ("AUTO_MODERATION_CONFIGURATION", Z.shiftl 1 20);
   ("AUTO_MODERATION_EXECUTION", Z.shiftl 1 21)].

(** [intentMap[intent]], for the names the object itself defines.  A name
    it only inherits ([constructor], [toString], ...) yields a function or
    an object, which is truthy but which [|] converts to 0, so that such a
    name leaves the accumulator as an unknown name does. *)
Definition intentFlag (intent : string) : option Z :=
  snd <$> List.find (fun kv => String.eqb (fst kv) intent) intentMap.

(** The reducer: [intentMap[intent] ? acc | intentMap[intent] : acc]. *)
Definition addIntent (acc : Z) (intent : string) : Z :=
  match intentFlag intent with
  | Some flag => Z.lor acc flag
  | None => acc
  end.

(** [parseGatewayIntents(intentsString)]. *)
Definition parseGatewayIntents (intentsString : string) : Z :=
  fold_left addIntent (map trim (split intentsString)) 0%Z.

End Config.

(** ** [src/moderation/contentModerator.js]: the word list at run time *)

Module Words.

(** [Set.prototype.add] and [Set.prototype.delete] on the ordered set. *)
Definition setAdd (x : string) (l : list string) : list string :=
  if Js.includes l x then l else l ++ [x].

Definition setDelete (x : string) (l : list string) : list string :=
  List.filter (fun y => negb (String.eqb x y)) l.

(** [addForbiddenWord(word)]. *)
Definition addForbiddenWord (word : Js.value) (rules : ContentModerator.Rules)
    (tr : list Logger.call) : bool * ContentModerator.Rules * list Logger.call :=
  match word with
  | Js.Str w =>
      if (0 <? String.length (Config.trim w))%nat then
        (true,
         {| ContentModerator.forbidden :=
              setAdd (Js.toLowerCase (Config.trim w)) (ContentModerator.forbidden rules) |},
         tr ++ [Logger.Info ("Added forbidden word: " +:+ w)])
      else (false, rules, tr)
  | _ => (false, rules, tr)
  end.

(** [removeForbiddenWord(word)]: [word.toLowerCase()] is called on whatever
    was passed. *)
Definition removeForbiddenWord (word : Js.value) (rules : ContentModerator.Rules)
    (tr : list Logger.call)
    : Js.completion (bool * ContentModerator.Rules * list Logger.call) :=
  let! w := ContentModerator.asString "word" "toLowerCase" word in
  if Js.includes (ContentModerator.forbidden rules) (Js.toLowerCase w) then
    Js.Return (true,
               {| ContentModerator.forbidden :=
                    setDelete (Js.toLowerCase w) (ContentModerator.forbidden rules) |},
               tr ++ [Logger.Info ("Removed forbidden word: " +:+ w)])
  else Js.Return (false, rules, tr).

(** [getForbiddenWords()]. *)
Definition getForbiddenWords (rules : ContentModerator.Rules) : list string :=
  ContentModerator.forbidden rules.

(** The words of the list that occur in a message, as
    [checkForbiddenWords] collects them. *)
Definition foundWords (rules : ContentModerator.Rules) (s : string) : list string :=
  List.filter (fun word => Js.str_includes (Js.toLowerCase s) word)
              (ContentModerator.forbidden rules).

(** What [moderateContent] logs of a message: at most its first 100
    characters, with an ellipsis when it was cut. *)
Definition snippet (s : string) : string :=
  Js.substring0 100 s +:+
  (if ContentModerator.gtNum (Some (Z.of_nat (String.length s))) 100 then "..." else "").

(** The security event for a verdict on the message [s]. *)
Definition moderatedEvent (s userId channelId guildId : string)
    (v : ContentModerator.ModerationResult) : Logger.call :=
  Logger.SecurityEvent "CONTENT_MODERATED"
    (ContentModerator.severityName (ContentModerator.severity v))
    [("userId", Js.Str userId); ("channelId", Js.Str channelId);
     ("guildId", Js.Str guildId); ("content", Js.Str (snippet s));
     ("reason", Js.Str (ContentModerator.reason v));
     ("actions", Js.Array (ContentModerator.actions v))].

(** A word as the list stores it: not empty, lower-case, and without white
    space at either end. *)
Definition stored (w : string) : Prop :=
  w <> "" /\ Js.toLowerCase w = w /\ Config.trim w = w.

End Words.

(** ** Inputs the examples run on *)

Module Samples.

(** A request from 10.0.0.1 carrying at most an API key. *)
Definition bareRequest (header query : Js.value) : Middleware.HttpRequest :=
  {| Middleware.headerApiKey := header; Middleware.queryApiKey := query;
     Middleware.paramsBotId := Js.Undefined; Middleware.bodyBotId := Some Js.Undefined;
     Middleware.queryBotId := Js.Undefined; Middleware.user := None;
     Middleware.ip := "10.0.0.1"; Middleware.botId := Js.Undefined |}.

(** A request for the bot [b] by a user holding the permissions [ps]. *)
Definition botRequest (b : string) (ps : list string) : Middleware.HttpRequest :=
  {| Middleware.headerApiKey := Js.Undefined; Middleware.queryApiKey := Js.Undefined;
     Middleware.paramsBotId := Js.Str b; Middleware.bodyBotId := Some Js.Undefined;
     Middleware.queryBotId := Js.Undefined;
     Middleware.user := Some {| Auth.ru_id := "user_1"; Auth.ru_permissions := Js.Array ps;
                                Auth.ru_authType := "api_key" |};
     Middleware.ip := "10.0.0.1"; Middleware.botId := Js.Undefined |}.

(** A platform on which every call succeeds. *)
Definition obligingPlatform : Dispatch.Platform :=
  {| Dispatch.fetchChannel := fun _ _ => Js.Return (Some {| Dispatch.channelGuildId := None |});
     Dispatch.send := fun channelId _ =>
       Js.Return {| Dispatch.messageId := "m1"; Dispatch.messageContent := "";
                    Dispatch.messageChannelId := channelId;
                    Dispatch.messageGuildId := None; Dispatch.createdTimestamp := 0 |};
     Dispatch.clientUserId := fun _ => "bot-user" |}.

Definition emptyWorld : Server.World :=
  {| Server.bots := BotManager.initial; Server.securityLog := [];
     Server.platformCalls := [] |}.

End Samples.

(** ** Notions the specification uses that the code has no name for *)

Module Spec.





(** [secret] was written to the log. *)
Definition logged (secret : string) (st : Auth.State) : bool :=
  Logger.mentions secret (Auth.log st).

(** The time left until the oldest timestamp still inside the window
    leaves it, in milliseconds and in whole seconds. *)
Definition remainingWindowMs (windowMs now : Z) (recorded : list Z) : Z :=
  match Auth.prune windowMs now recorded with
  | oldest :: _ => (oldest + windowMs - now)%Z
  | [] => 0%Z
  end.

Definition remainingWindowSeconds (windowMs now : Z) (recorded : list Z) : Z :=
  Js.ceilDiv (remainingWindowMs windowMs now recorded) 1000.

(** The [retryAfter] field of a rejection. *)
Definition retryAfter (o : Auth.Outcome) : option Js.value :=
  match o with
  | Auth.Respond _ body => snd <$> List.find (fun kv => String.eqb (fst kv) "retryAfter") body
  | Auth.Next => None
  end.

(** The answer to a request over the limit. *)
Definition rejection (windowMs : Z) : Auth.Outcome :=
  Auth.Respond 429 [("error", Js.Str "Rate limit exceeded");
                    ("code", Js.Str "RATE_LIMIT_EXCEEDED");
                    ("retryAfter", Js.Number (Js.ceilDiv windowMs 1000))].

(** A clock reading inside the window that starts at [w], and a recorded
    timestamp that has left the window of every such reading. *)
Definition inWindow (windowMs w t : Z) : Prop := (w <= t < w + windowMs)%Z.
Definition expired (windowMs w e : Z) : Prop := (e + windowMs <= w)%Z.

(** A request that carries no authenticated user. *)
Definition anonymous (address : string) : Auth.Request :=
  {| Auth.user := None; Auth.ip := address |}.

(** The bot [initializeDefaultBot] starts. *)
Definition demoBot : BotManager.BotConfig :=
  {| BotManager.id := "default"; BotManager.token := "token";
     BotManager.name := "MCP Discord Bot"; BotManager.ownerId := "system" |}.




(** An environment to run examples in: work factor 12 and a stand-in
    for bcrypt whose digests never contain the plaintext. *)
Definition demoEnv : Auth.Env :=
  {| Auth.bcryptRounds := 12; Auth.hashSync := fun _ _ => "$2a$12$digest" |}.

End Spec.

(** * Properties *)

(** ** Permissions *)

Lemma includes_elem_of (xs : list string) (x : string) :
  Js.includes xs x = true <-> x ∈ xs.
Proof.
  unfold Js.includes. rewrite existsb_exists. split.
  - intros (y & Hin & Heq). apply String.eqb_eq in Heq. subst y.
    by apply list_elem_of_In.
  - intros Hin. exists x. split; [by apply list_elem_of_In | apply String.eqb_refl].
Qed.

(** C6: on a permission list, [hasPermission] holds exactly when the list
    contains the required permission, ['admin'] or ['*']. *)
Theorem hasPermission_iff (granted : list string) (required : string) :
  Auth.hasPermission (Js.Array granted) required = true <->
  required ∈ granted \/ "admin" ∈ granted \/ "*" ∈ granted.
Proof.
  unfold Auth.hasPermission. cbn [Js.truthy Js.isArray negb orb].
  rewrite !orb_true_iff, !includes_elem_of. tauto.
Qed.

(** C10: [hasPermission] answers [false], and does not throw, whenever the
    granted argument is not an array: [null], [undefined], or any other
    value. *)
Theorem hasPermission_non_array (granted : Js.value) (required : string) :
  Js.isArray granted = false ->
  Auth.hasPermission granted required = false.
Proof.
  intros Hna. unfold Auth.hasPermission. rewrite Hna.
  by rewrite orb_true_r.
Qed.

Lemma hasPermission_non_array_witness :
  Js.isArray Js.Null = false /\ Auth.hasPermission Js.Null "send_message" = false.
Proof.
  split; [reflexivity | apply (hasPermission_non_array Js.Null "send_message"); reflexivity].
Defined.

(** ** The credential store *)

(** C9: a key that is absent from the store, or whose record is inactive,
    gets [null] and leaves the whole state as it was; and whenever a call
    does change the state, it is a successful verification of an active
    key, whose record differs from the old one in [lastUsed] only. *)
Theorem validateApiKey_touches_only_on_success (now : Z) (st : Auth.State) :
  (forall apiKey,
      (Auth.getKey st apiKey = None \/
       exists kd, Auth.getKey st apiKey = Some kd /\ Auth.isActive kd = false) ->
      Auth.validateApiKey now apiKey st = (None, st))
  /\
  (forall apiKey,
      snd (Auth.validateApiKey now apiKey st) <> st ->
      exists k kd,
        apiKey = Js.Str k /\ Auth.apiKeys st !! k = Some kd /\ Auth.isActive kd = true /\
        Auth.validateApiKey now apiKey st =
          (Some {| Auth.p_userId := Auth.userId kd; Auth.p_permissions := Auth.permissions kd |},
           {| Auth.apiKeys := <[k := Auth.touched now kd]> (Auth.apiKeys st);
              Auth.users := Auth.users st; Auth.log := Auth.log st |})).
Proof.
  split.
  - intros apiKey H. unfold Auth.validateApiKey.
    destruct (negb (Js.truthy apiKey)); [reflexivity |].
    destruct H as [Hnone | (kd & Hsome & Hoff)].
    + destruct apiKey; cbn in *; try reflexivity. by rewrite Hnone.
    + destruct apiKey; cbn in *; try reflexivity. by rewrite Hsome, Hoff.
  - intros apiKey. unfold Auth.validateApiKey.
    destruct (negb (Js.truthy apiKey)); [intros []; reflexivity |].
    destruct apiKey as [| | b | n | k | xs |]; cbn [Auth.getKey];
      try (intros []; reflexivity).
    destruct (Auth.apiKeys st !! k) as [kd |] eqn:Hk; [| intros []; reflexivity].
    destruct (Auth.isActive kd) eqn:Hact; cbn [negb]; [| intros []; reflexivity].
    intros _. exists k, kd. repeat split; assumption.
Qed.

Lemma validateApiKey_touches_only_on_success_witness :
  Auth.getKey Auth.initial (Js.Str "c0ffee") = None /\
  Auth.validateApiKey 7 (Js.Str "c0ffee") Auth.initial = (None, Auth.initial).
Proof.
  split; [reflexivity |].
  apply (proj1 (validateApiKey_touches_only_on_success 7 Auth.initial) (Js.Str "c0ffee")).
  left. reflexivity.
Defined.

(** ** The rate limiter *)

Section RateLimiter.

Variables (windowMs maxRequests : Z) (req : Auth.Request).

Let key := Auth.limiterKey req.

Let rejection := Spec.rejection windowMs.

(** What one call does, in terms of the key's pruned history. *)
Lemma rateLimiter_cases (now : Z) (lm : Auth.Limiter) :
  let valid := Auth.prune windowMs now (Auth.history lm key) in
  let out := Auth.rateLimiter windowMs maxRequests req now lm in
  ((maxRequests <= Z.of_nat (length valid))%Z ->
     fst out = rejection /\ Auth.history (snd out) key = valid) /\
  ((Z.of_nat (length valid) < maxRequests)%Z ->
     fst out = Auth.Next /\ Auth.history (snd out) key = valid ++ [now]).
Proof.
  cbn zeta. unfold Auth.rateLimiter, Auth.history. fold key.
  set (requests1 := match Auth.requests lm !! key with
                    | Some _ => Auth.requests lm
                    | None => <[key := []]> (Auth.requests lm)
                    end).
  assert (Hsame : default [] (requests1 !! key) = default [] (Auth.requests lm !! key)).
  { subst requests1. destruct (Auth.requests lm !! key) eqn:E.
    - by rewrite E.
    - by rewrite lookup_insert_eq. }
  rewrite Hsame.
  set (valid := Auth.prune windowMs now (default [] (Auth.requests lm !! key))).
  destruct (Z.of_nat (length valid) >=? maxRequests)%Z eqn:Hge.
  - apply Z.geb_le in Hge. split; [| lia].
    intros _. cbn [fst snd Auth.requests]. split; [reflexivity |].
    by rewrite lookup_insert_eq.
  - rewrite Z.geb_leb in Hge. apply Z.leb_gt in Hge. split; [lia |].
    intros _. cbn [fst snd Auth.requests]. split; [reflexivity |].
    by rewrite lookup_insert_eq.
Qed.

Lemma rateLimiterRun_app (ts1 ts2 : list Z) (lm : Auth.Limiter) :
  Auth.rateLimiterRun windowMs maxRequests req (ts1 ++ ts2) lm =
  let r1 := Auth.rateLimiterRun windowMs maxRequests req ts1 lm in
  let r2 := Auth.rateLimiterRun windowMs maxRequests req ts2 (snd r1) in
  (fst r1 ++ fst r2, snd r2).
Proof.
  revert lm. induction ts1 as [| t ts1 IH]; intros lm; cbn [app Auth.rateLimiterRun].
  - cbn. by destruct (Auth.rateLimiterRun windowMs maxRequests req ts2 lm).
  - destruct (Auth.rateLimiter windowMs maxRequests req t lm) as [o lm1].
    rewrite IH. cbn zeta.
    destruct (Auth.rateLimiterRun windowMs maxRequests req ts1 lm1) as [os lm2].
    cbn [fst snd].
    by destruct (Auth.rateLimiterRun windowMs maxRequests req ts2 lm2).
Qed.

(** Pruning, seen from a window [[w, w + windowMs)]. *)
Variable w : Z.

Let inWindow := Spec.inWindow windowMs w.
Let expired := Spec.expired windowMs w.

Lemma prune_inWindow (now : Z) (l : list Z) :
  inWindow now -> Forall inWindow l -> Auth.prune windowMs now l = l.
Proof.
  intros Hnow. induction 1 as [| e l He _ IH]; [reflexivity |].
  unfold Auth.prune in *. cbn [List.filter]. rewrite IH.
  unfold inWindow, Spec.inWindow in *.
  destruct (now - e <? windowMs)%Z eqn:Hlt; [reflexivity |].
  apply Z.ltb_ge in Hlt. lia.
Qed.

Lemma prune_expired (now : Z) (l : list Z) :
  (w <= now)%Z -> Forall expired l -> Auth.prune windowMs now l = [].
Proof.
  intros Hnow. induction 1 as [| e l He _ IH]; [reflexivity |].
  unfold Auth.prune in *. cbn [List.filter]. rewrite IH.
  unfold expired, Spec.expired in *.
  destruct (now - e <? windowMs)%Z eqn:Hlt; [| reflexivity].
  apply Z.ltb_lt in Hlt. lia.
Qed.

Lemma prune_drops (now : Z) (l : list Z) (t : Z) :
  t ∈ l -> (windowMs <= now - t)%Z ->
  (length (Auth.prune windowMs now l) < length l)%nat.
Proof.
  unfold Auth.prune. induction l as [| e l IH]; intros Hin Hold.
  - by apply not_elem_of_nil in Hin.
  - cbn [List.filter length]. apply elem_of_cons in Hin as [<- | Hin].
    + assert ((now - t <? windowMs)%Z = false) as -> by (apply Z.ltb_ge; lia).
      pose proof (List.filter_length_le (fun time => (now - time <? windowMs)%Z) l). lia.
    + specialize (IH Hin Hold).
      destruct (now - e <? windowMs)%Z; cbn [length]; lia.
Qed.

(** While the calls stay inside the window and the key holds fewer than
    [maxRequests] live timestamps, every call is admitted and recorded. *)
Lemma rateLimiterRun_admits (ts live : list Z) (lm : Auth.Limiter) :
  (forall now, inWindow now -> Auth.prune windowMs now (Auth.history lm key) = live) ->
  Forall inWindow live ->
  Forall inWindow ts ->
  (Z.of_nat (length live + length ts) <= maxRequests)%Z ->
  let out := Auth.rateLimiterRun windowMs maxRequests req ts lm in
  fst out = replicate (length ts) Auth.Next /\
  (forall now, inWindow now ->
     Auth.prune windowMs now (Auth.history (snd out) key) = live ++ ts).
Proof.
  revert live lm. induction ts as [| t ts IH]; intros live lm Hprune Hlive Hts Hroom.
  - cbn. split; [reflexivity |]. intros now Hnow. rewrite app_nil_r. by apply Hprune.
  - apply Forall_cons in Hts as [Ht Hts]. cbn [length] in Hroom.
    cbn zeta. cbn [Auth.rateLimiterRun].
    destruct (rateLimiter_cases t lm) as [_ Hadmit]. cbn zeta in Hadmit.
    rewrite (Hprune t Ht) in Hadmit.
    destruct Hadmit as [Hout Hhist]; [lia |].
    destruct (Auth.rateLimiter windowMs maxRequests req t lm) as [o lm1].
    cbn [fst snd] in Hout, Hhist. subst o.
    assert (Hlive1 : Forall inWindow (live ++ [t])).
    { apply Forall_app. split; [assumption | by apply Forall_singleton]. }
    destruct (IH (live ++ [t]) lm1) as [Houts Hfinal]; try assumption.
    + intros now Hnow. rewrite Hhist. by apply prune_inWindow.
    + rewrite length_app. cbn [length]. lia.
    + destruct (Auth.rateLimiterRun windowMs maxRequests req ts lm1) as [os lm2].
      cbn [fst snd] in *. subst os. split; [reflexivity |].
      intros now Hnow. rewrite (Hfinal now Hnow). by rewrite <- app_assoc.
Qed.

End RateLimiter.

(** C4: [n + 1] calls for one key inside one window, with [maxRequests = n]
    and no live timestamp recorded for the key beforehand: the first [n] are
    admitted, the last is rejected and records nothing (the key keeps exactly
    the [n] admitted timestamps), and a later call is admitted as soon as the
    window duration has elapsed since one of the admitted calls, so in
    particular once it has elapsed since all of them. *)
Theorem rateLimiter_window (windowMs : Z) (n : nat) (req : Auth.Request)
    (lm : Auth.Limiter) (ts : list Z) (w : Z) :
  length ts = S n ->
  Forall (Spec.inWindow windowMs w) ts ->
  Forall (Spec.expired windowMs w) (Auth.history lm (Auth.limiterKey req)) ->
  let out := Auth.rateLimiterRun windowMs (Z.of_nat n) req ts lm in
  fst out = replicate n Auth.Next ++ [Spec.rejection windowMs] /\
  Auth.history (snd out) (Auth.limiterKey req) = take n ts /\
  forall later t,
    t ∈ take n ts -> (windowMs <= later - t)%Z ->
    fst (Auth.rateLimiter windowMs (Z.of_nat n) req later (snd out)) = Auth.Next.
Proof.
  intros Hlen Hts Hold. cbn zeta.
  assert (Hsplit : exists last, ts = take n ts ++ [last]).
  { exists (List.last ts 0%Z).
    rewrite <- (firstn_skipn n ts) at 1. f_equal.
    destruct (drop n ts) as [| x [| y l]] eqn:Hdrop.
    - apply (f_equal length) in Hdrop. rewrite length_drop in Hdrop. cbn in Hdrop. lia.
    - rewrite <- (firstn_skipn n ts). change (skipn n ts) with (drop n ts).
      rewrite Hdrop. by rewrite List.last_last.
    - apply (f_equal length) in Hdrop. rewrite length_drop in Hdrop. cbn in Hdrop. lia. }
  destruct Hsplit as [last Hsplit].
  set (first := take n ts) in *.
  assert (Hfirstlen : length first = n).
  { subst first. rewrite length_take. lia. }
  rewrite Hsplit in Hts. apply Forall_app in Hts as [Hfirst Hlast].
  rewrite Forall_singleton in Hlast.
  rewrite Hsplit, rateLimiterRun_app. cbn zeta.
  destruct (rateLimiterRun_admits windowMs (Z.of_nat n) req w first [] lm)
    as [Houts Hprune]; try assumption.
  { intros now Hnow. apply (prune_expired windowMs w); [apply Hnow | assumption]. }
  { constructor. }
  { cbn [length]. lia. }
  destruct (Auth.rateLimiterRun windowMs (Z.of_nat n) req first lm) as [os lm1].
  cbn [fst snd app] in *. subst os. rewrite Hfirstlen.
  cbn [Auth.rateLimiterRun].
  destruct (rateLimiter_cases windowMs (Z.of_nat n) req last lm1) as [Hreject _].
  cbn zeta in Hreject. rewrite (Hprune last Hlast) in Hreject.
  destruct Hreject as [Hout Hhist]; [lia |].
  destruct (Auth.rateLimiter windowMs (Z.of_nat n) req last lm1) as [o lm2].
  cbn [fst snd] in *. subst o. split; [reflexivity |]. split; [assumption |].
  intros later t Hin Hgone.
  destruct (rateLimiter_cases windowMs (Z.of_nat n) req later lm2) as [_ Hadmit].
  cbn zeta in Hadmit. rewrite Hhist in Hadmit.
  apply Hadmit.
  pose proof (prune_drops windowMs later first t Hin Hgone). lia.
Qed.

Lemma rateLimiter_window_witness :
  let out := Auth.rateLimiterRun 1000 2 (Spec.anonymous "10.0.0.1") [0; 10; 20]%Z Auth.freshLimiter in
  fst out = [Auth.Next; Auth.Next; Spec.rejection 1000] /\
  Auth.history (snd out) "10.0.0.1" = [0; 10]%Z /\
  fst (Auth.rateLimiter 1000 2 (Spec.anonymous "10.0.0.1") 1000 (snd out)) = Auth.Next.
Proof.
  pose proof (rateLimiter_window 1000 2 (Spec.anonymous "10.0.0.1") Auth.freshLimiter
                [0; 10; 20]%Z 0) as H.
  cbn zeta in H.
  destruct H as (Houts & Hhist & Hlater).
  - reflexivity.
  - unfold Spec.inWindow. repeat constructor; lia.
  - constructor.
  - split; [exact Houts |]. split; [exact Hhist |].
    apply (Hlater 1000%Z 0%Z); [| lia].
    cbn. apply elem_of_cons. by left.
Defined.

Lemma ceilDiv_mono (a b : Z) : (a <= b)%Z -> (Js.ceilDiv a 1000 <= Js.ceilDiv b 1000)%Z.
Proof.
  intros Hab. unfold Js.ceilDiv.
  assert ((- b) / 1000 <= (- a) / 1000)%Z by (apply Z.div_le_mono; lia).
  lia.
Qed.

Lemma prune_keeps (windowMs now : Z) (l : list Z) (e : Z) :
  In e (Auth.prune windowMs now l) -> In e l /\ (now - e < windowMs)%Z.
Proof.
  unfold Auth.prune. rewrite List.filter_In. intros [Hin Hlt].
  split; [assumption | by apply Z.ltb_lt].
Qed.

(** C5, as the code has it: every rejection is a 429 whose [retryAfter] is
    the whole window length in seconds, [ceil(windowMs / 1000)], whatever the
    clock reads and whatever is recorded; when no recorded timestamp lies in
    the future, this is an upper bound of the time left until the oldest
    timestamp in the window expires. *)
Theorem rateLimiter_retryAfter_is_window_length (windowMs maxRequests : Z)
    (req : Auth.Request) (now : Z) (lm : Auth.Limiter) (status : Z) (body : Js.fields) :
  fst (Auth.rateLimiter windowMs maxRequests req now lm) = Auth.Respond status body ->
  status = 429%Z /\
  Spec.retryAfter (Auth.Respond status body) = Some (Js.Number (Js.ceilDiv windowMs 1000)) /\
  ((0 <= windowMs)%Z ->
   Forall (fun e => (e <= now)%Z) (Auth.history lm (Auth.limiterKey req)) ->
   (Spec.remainingWindowSeconds windowMs now (Auth.history lm (Auth.limiterKey req))
      <= Js.ceilDiv windowMs 1000)%Z).
Proof.
  intros Hout.
  assert (Hrej : Auth.Respond status body = Spec.rejection windowMs).
  { destruct (rateLimiter_cases windowMs maxRequests req now lm) as [Hreject Hadmit].
    cbn zeta in *.
    destruct (Z_lt_le_dec
                (Z.of_nat (length (Auth.prune windowMs now
                                     (Auth.history lm (Auth.limiterKey req)))))
                maxRequests) as [Hlt | Hge].
    - destruct (Hadmit Hlt) as [Hnext _]. congruence.
    - destruct (Hreject Hge) as [Hr _]. congruence. }
  injection Hrej as -> ->.
  split; [reflexivity |]. split; [reflexivity |].
  intros Hwin Hpast. unfold Spec.remainingWindowSeconds, Spec.remainingWindowMs.
  apply ceilDiv_mono.
  destruct (Auth.prune windowMs now (Auth.history lm (Auth.limiterKey req)))
    as [| oldest rest] eqn:Hvalid; [assumption |].
  assert (Hin : In oldest (Auth.prune windowMs now (Auth.history lm (Auth.limiterKey req)))).
  { rewrite Hvalid. by left. }
  apply prune_keeps in Hin as [Hin _].
  rewrite Forall_forall in Hpast. apply list_elem_of_In in Hin.
  specialize (Hpast oldest Hin). cbn beta in Hpast. lia.
Qed.

Lemma rateLimiter_retryAfter_is_window_length_witness :
  let lm1 := snd (Auth.rateLimiter 60000 1 (Spec.anonymous "10.0.0.1") 0 Auth.freshLimiter) in
  fst (Auth.rateLimiter 60000 1 (Spec.anonymous "10.0.0.1") 30000 lm1) = Spec.rejection 60000 /\
  Spec.retryAfter (Spec.rejection 60000) = Some (Js.Number 60).
Proof.
  cbn zeta. split; [reflexivity |].
  apply (rateLimiter_retryAfter_is_window_length 60000 1 (Spec.anonymous "10.0.0.1") 30000
           (snd (Auth.rateLimiter 60000 1 (Spec.anonymous "10.0.0.1") 0 Auth.freshLimiter))).
  reflexivity.
Defined.

(** C5 as stated fails: with a 60 s window and one request allowed, a
    request admitted at 0 ms and another made at 30 000 ms, the second is
    rejected with [retryAfter = 60], while the recorded timestamp leaves the
    window in 30 s. *)
Lemma rateLimiter_retryAfter_not_remaining :
  let lm1 := snd (Auth.rateLimiter 60000 1 (Spec.anonymous "10.0.0.1") 0 Auth.freshLimiter) in
  let out := fst (Auth.rateLimiter 60000 1 (Spec.anonymous "10.0.0.1") 30000 lm1) in
  Spec.retryAfter out = Some (Js.Number 60) /\
  Spec.remainingWindowSeconds 60000 30000 (Auth.history lm1 "10.0.0.1") = 30%Z /\
  Spec.retryAfter out <>
    Some (Js.Number (Spec.remainingWindowSeconds 60000 30000 (Auth.history lm1 "10.0.0.1"))).
Proof.
  cbn zeta. split; [reflexivity |]. split; [reflexivity |].
  vm_compute. discriminate.
Qed.

(** ** The bot registry *)

Section BotRegistry.

Import BotManager.


End BotRegistry.



(** ** Where the plaintext key goes *)





(** ** Behaviour moderation *)

Lemma actionsOf_new (key : string) :
  ContentModerator.actionsOf ContentModerator.newUserActions key = [].
Proof.
  unfold ContentModerator.actionsOf, ContentModerator.newUserActions.
  rewrite lookup_empty. by rewrite lookup_insert_eq.
Qed.

Lemma moderateUserBehavior_acceptable (now : Z) (userId guildId action : string)
    (tr : list Logger.call) :
  ContentModerator.moderateUserBehavior now userId guildId action tr =
  ({| ContentModerator.shouldModerate := false;
      ContentModerator.behaviorReason := "User behavior acceptable";
      ContentModerator.behaviorActions := None |}, tr).
Proof.
  unfold ContentModerator.moderateUserBehavior. by rewrite actionsOf_new.
Qed.

(** C8: the map [moderateUserBehavior] tracks actions in is created anew
    by every call, so the history a call reads from it is empty whatever the
    key, and in any sequence of calls each one answers
    [shouldModerate = false] and logs nothing. *)
Theorem moderateUserBehavior_has_no_memory (calls : list ContentModerator.BehaviorCall)
    (tr : list Logger.call) :
  (forall key, ContentModerator.actionsOf ContentModerator.newUserActions key = []) /\
  let out := ContentModerator.behaviorRun calls tr in
  length (fst out) = length calls /\
  Forall (fun r => ContentModerator.shouldModerate r = false) (fst out) /\
  snd out = tr.
Proof.
  split; [exact actionsOf_new |]. cbn zeta.
  induction calls as [| c calls IH]; cbn [ContentModerator.behaviorRun].
  - repeat split. constructor.
  - rewrite moderateUserBehavior_acceptable.
    destruct (ContentModerator.behaviorRun calls tr) as [rs tr2].
    cbn [fst snd length] in *. destruct IH as (Hlen & Hall & Htr).
    split; [by rewrite Hlen |]. split; [| assumption].
    constructor; [reflexivity | assumption].
Qed.

(** ** The matcher never runs out of rounds *)

Section Fuel.

Import Regex.

Lemma onward_refl (x : pos) : onward x x.
Proof. unfold onward. lia. Qed.

Lemma onward_trans (x y z : pos) : onward x y -> onward y z -> onward x z.
Proof. unfold onward. lia. Qed.

Lemma onward_setCap (w w' : option (list ascii)) (x y : pos) :
  onward x y -> onward (setCap w x) (setCap w' y).
Proof. by unfold onward, setCap. Qed.

Lemma consume_onward (w : list ascii) (x y : pos) : consume w x = Some y -> onward x y.
Proof.
  revert x. induction w as [| a w IH]; intros x; cbn [consume].
  - intros [= ->]. apply onward_refl.
  - destruct (rest x) as [| c tl] eqn:Hrest; [discriminate |].
    destruct (Ascii.eqb a c); [| discriminate].
    intros Hy. apply IH in Hy. revert Hy. unfold onward. cbn. rewrite Hrest. cbn. lia.
Qed.

Lemma rounds_steady body clear greedy :
  steady body ->
  forall fuel lo hi x k k',
    (forall y, onward x y -> k y = k' y) ->
    rounds body clear greedy k fuel lo hi x = rounds body clear greedy k' fuel lo hi x.
Proof.
  intros Hbody. induction fuel as [| fuel IH]; intros lo hi x k k' Hk; [reflexivity |].
  cbn [rounds].
  assert (Hx : k x = k' x) by apply Hk, onward_refl.
  assert (Hagain :
    body (if clear then setCap None x else x)
      (fun y => if (lo =? 0)%nat && (idx y =? idx x)%nat then None
                else rounds body clear greedy k fuel (pred lo) (option_map pred hi) y) =
    body (if clear then setCap None x else x)
      (fun y => if (lo =? 0)%nat && (idx y =? idx x)%nat then None
                else rounds body clear greedy k' fuel (pred lo) (option_map pred hi) y)).
  { apply Hbody. intros y Hy.
    destruct ((lo =? 0)%nat && (idx y =? idx x)%nat); [reflexivity |].
    apply IH. intros z Hz. apply Hk.
    apply onward_trans with y; [| assumption].
    destruct clear; [| assumption].
    revert Hy. unfold onward, setCap. cbn. lia. }
  rewrite Hagain, Hx. reflexivity.
Qed.

Lemma run_steady (r : regex) : steady (run r).
Proof.
  induction r as [| p | r1 IH1 r2 IH2 | r1 IH1 r2 IH2 | greedy lo hi r1 IH | r1 IH | |];
    intros x k k' Hk; cbn [run].
  - apply Hk, onward_refl.
  - destruct (rest x) as [| c tl] eqn:Hrest; [reflexivity |].
    destruct (p c); [| reflexivity].
    apply Hk. unfold onward. cbn. rewrite Hrest. cbn. lia.
  - apply IH1. intros y Hy. apply IH2. intros z Hz. apply Hk.
    by apply onward_trans with y.
  - by rewrite (IH1 x k k' Hk), (IH2 x k k' Hk).
  - by apply rounds_steady.
  - apply IH. intros y Hy. apply Hk.
    revert Hy. unfold onward, setCap. cbn. lia.
  - destruct (cap x) as [w |]; [| apply Hk, onward_refl].
    destruct (consume w x) as [y |] eqn:Hy; [| reflexivity].
    apply Hk. by apply consume_onward with w.
  - destruct (xorb _ _); [| reflexivity]. apply Hk, onward_refl.
Qed.

(** Beyond [lo + length (rest x)] rounds, more fuel changes nothing: the
    bound [run] passes to [rounds] is never the reason a match fails. *)
Lemma rounds_fuel body clear greedy k :
  steady body ->
  forall n fuel1 fuel2 lo hi x,
    (lo + length (rest x) <= n)%nat -> (n < fuel1)%nat -> (n < fuel2)%nat ->
    rounds body clear greedy k fuel1 lo hi x = rounds body clear greedy k fuel2 lo hi x.
Proof.
  intros Hbody. induction n as [n IH] using lt_wf_ind.
  intros fuel1 fuel2 lo hi x Hn H1 H2.
  destruct fuel1 as [| f1]; [lia |]. destruct fuel2 as [| f2]; [lia |].
  cbn [rounds].
  assert (Hagain :
    body (if clear then setCap None x else x)
      (fun y => if (lo =? 0)%nat && (idx y =? idx x)%nat then None
                else rounds body clear greedy k f1 (pred lo) (option_map pred hi) y) =
    body (if clear then setCap None x else x)
      (fun y => if (lo =? 0)%nat && (idx y =? idx x)%nat then None
                else rounds body clear greedy k f2 (pred lo) (option_map pred hi) y)).
  { apply Hbody. intros y Hy.
    assert (Hy' : onward x y).
    { destruct clear; [| assumption]. revert Hy. unfold onward, setCap. cbn. lia. }
    destruct (lo =? 0)%nat eqn:Hlo; cbn [andb].
    - destruct (idx y =? idx x)%nat eqn:Hidx; [reflexivity |].
      apply Nat.eqb_eq in Hlo. apply Nat.eqb_neq in Hidx. subst lo.
      destruct Hy' as [Hsum Hle].
      apply (IH (pred n)); cbn [pred]; lia.
    - apply Nat.eqb_neq in Hlo. destruct Hy' as [Hsum Hle].
      apply (IH (pred n)); lia. }
  by rewrite Hagain.
Qed.

Lemma run_fuel_enough (r : regex) (greedy : bool) (lo : nat) (hi : option nat)
    (x : pos) (k : pos -> option pos) (extra : nat) :
  run (Rep greedy lo hi r) x k =
  rounds (run r) (hasGroup r) greedy k (extra + (lo + length (rest x) + 1)) lo hi x.
Proof.
  cbn [run]. apply rounds_fuel with (n := (lo + length (rest x))%nat);
    [apply run_steady | lia | lia | lia].
Qed.

End Fuel.

(** The matcher on strings whose matches under Node are known. *)
Example emoji_matches :
  Regex.matchAll ContentModerator.emojiPattern "<:a:1><a:bb:22>x<:c:3:4>" =
  Some (map list_ascii_of_string ["<:a:1>"; "<a:bb:22>"; "<:c:3:4>"]).
Proof. reflexivity. Qed.

Example mention_matches :
  Regex.matchAll ContentModerator.mentionPattern "<@123><@!5> <@>" =
  Some (map list_ascii_of_string ["<@123>"; "<@!5>"]).
Proof. reflexivity. Qed.

Example url_cluster_matches :
  map (fun s => Regex.matchAll (nth 1 ContentModerator.spamPatterns Regex.Eps) s)
      ["see http://a.bhttp://c.dhttps://e.f ok"; "see http://a.b http://c.d https://e.f ok"] =
  [Some [list_ascii_of_string "http://a.bhttp://c.dhttps://e.f"]; None].
Proof. reflexivity. Qed.

Example keyword_matches :
  Regex.matchAll (nth 0 ContentModerator.suspiciousPatterns Regex.Eps)
                 "buy buying Sell, free_money cash" =
  Some (map list_ascii_of_string ["buy"; "Sell"; "cash"]).
Proof. reflexivity. Qed.

Example repeated_run_matches :
  map (fun s => Regex.matchAll (nth 0 ContentModerator.spamPatterns Regex.Eps) s)
      ["aaaa"; "xaaaaaay"; "ababababab"] =
  [None; Some [list_ascii_of_string "aaaaaa"]; None].
Proof. reflexivity. Qed.

(** ** Content moderation *)

Section Verdict.

Import ContentModerator.

(** The head of the sorted violations is the first of the most severe. *)
Lemma sortBy_head (l : list ModerationResult) :
  l <> [] ->
  exists v rest l1 l2,
    sortBy bySeverity l = v :: rest /\
    l = l1 ++ v :: l2 /\
    Forall (fun c => (severityOrder (severity c) < severityOrder (severity v))%Z) l1 /\
    Forall (fun c => (severityOrder (severity c) <= severityOrder (severity v))%Z) l2.
Proof.
  induction l as [| x l IH]; [congruence |]. intros _.
  destruct l as [| y l'].
  - exists x, [], [], []. cbn. repeat split; constructor.
  - destruct IH as (v & rest & l1 & l2 & Hsort & Hl & Hlt & Hle); [congruence |].
    cbn [sortBy] in *. rewrite Hsort. cbn [insertBy].
    destruct (0 <? bySeverity x v)%Z eqn:Hcmp.
    + apply Z.ltb_lt in Hcmp. unfold bySeverity in Hcmp.
      exists v, (insertBy bySeverity x rest), (x :: l1), l2.
      split; [reflexivity |]. split; [by rewrite Hl |].
      split; [constructor; [lia | assumption] | assumption].
    + apply Z.ltb_ge in Hcmp. unfold bySeverity in Hcmp.
      exists x, (v :: rest), [], (y :: l').
      split; [reflexivity |]. split; [reflexivity |].
      split; [constructor |]. rewrite Hl. apply Forall_app. split.
      * eapply Forall_impl; [exact Hlt |]. cbn beta. intros c Hc. lia.
      * constructor; [lia |].
        eapply Forall_impl; [exact Hle |]. cbn beta. intros c Hc. lia.
Qed.


Variables (cfg : Config) (rules : Rules) (now : Z).

(** On a string, no rule throws. *)
Lemma runChecks_string (s : string) :
  exists checks, runChecks cfg rules now (Js.Str s) = Js.Return checks.
Proof.
  unfold runChecks.
  assert (H1 : exists r, checkMessageLength cfg now (Js.Str s) = Js.Return r).
  { unfold checkMessageLength. cbn [getLength Js.bind]. destruct (gtNum _ _); eauto. }
  assert (H2 : exists r, checkForbiddenWords rules now (Js.Str s) = Js.Return r).
  { unfold checkForbiddenWords. cbn [asString Js.bind]. destruct (0 <? _)%nat; eauto. }
  assert (H3 : exists r, checkSpamPatterns now (Js.Str s) = Js.Return r).
  { unfold checkSpamPatterns. cbn [asString Js.bind]. eauto. }
  assert (H4 : exists r, checkSuspiciousContent now (Js.Str s) = Js.Return r).
  { unfold checkSuspiciousContent. cbn [asString Js.bind]. destruct (3 <=? _)%nat; eauto. }
  assert (H5 : exists r, checkExcessiveMentions now (Js.Str s) = Js.Return r).
  { unfold checkExcessiveMentions. cbn [asString Js.bind].
    destruct (Regex.matchAll _ _); [destruct (5 <? _)%nat |]; eauto. }
  assert (H6 : exists r, checkExcessiveEmojis now (Js.Str s) = Js.Return r).
  { unfold checkExcessiveEmojis. cbn [asString Js.bind].
    destruct (Regex.matchAll _ _); [destruct (10 <? _)%nat |]; eauto. }
  assert (H7 : exists r, checkCapsSpam now (Js.Str s) = Js.Return r).
  { unfold checkCapsSpam. cbn [asString Js.bind]. destruct (_ && _); eauto. }
  destruct H1 as [r1 ->], H2 as [r2 ->], H3 as [r3 ->], H4 as [r4 ->],
           H5 as [r5 ->], H6 as [r6 ->], H7 as [r7 ->].
  cbn [Js.bind]. eauto.
Qed.

(** On anything but a string, some rule throws. *)
Lemma runChecks_non_string (content : Js.value) :
  (forall s, content <> Js.Str s) ->
  exists e, runChecks cfg rules now content = Js.Throw e.
Proof.
  intros Hns. unfold runChecks, checkMessageLength, checkForbiddenWords.
  destruct content as [| | b | n | s | xs |];
    try (by destruct (Hns s));
    cbn [getLength asString Js.bind gtNum]; eauto.
  destruct (_ <? _)%Z; cbn [Js.bind]; eauto.
Qed.


End Verdict.







(** * Further properties of the code *)

(** ** The rate limiter: isolation, bounds, and the sliding window *)

Lemma rateLimiter_frame (windowMs maxRequests : Z) (req : Auth.Request) (now : Z)
    (lm : Auth.Limiter) :
  let out := Auth.rateLimiter windowMs maxRequests req now lm in
  (forall k, k <> Auth.limiterKey req ->
             Auth.requests (snd out) !! k = Auth.requests lm !! k) /\
  is_Some (Auth.requests (snd out) !! Auth.limiterKey req).
Proof.
  cbn zeta. unfold Auth.rateLimiter.
  set (key := Auth.limiterKey req).
  set (requests1 := match Auth.requests lm !! key with
                    | Some _ => Auth.requests lm
                    | None => <[key := []]> (Auth.requests lm)
                    end).
  assert (Hother : forall k, k <> key -> requests1 !! k = Auth.requests lm !! k).
  { intros k Hk. subst requests1. destruct (Auth.requests lm !! key); [reflexivity |].
    by rewrite lookup_insert_ne. }
  destruct (_ >=? _)%Z; cbn [fst snd Auth.requests]; split.
  - intros k Hk. rewrite lookup_insert_ne by done. by apply Hother.
  - rewrite lookup_insert_eq. by eexists.
  - intros k Hk. rewrite !lookup_insert_ne by done. by apply Hother.
  - rewrite lookup_insert_eq. by eexists.
Qed.

(** X1: one limiter serving any mix of callers never removes a key from
    its map, and the timestamps it holds for a caller are changed only by
    that caller's own requests. *)
Theorem rateLimiterServe_isolation (windowMs maxRequests : Z)
    (calls : list (Auth.Request * Z)) (lm : Auth.Limiter) (k : string) :
  let lm' := snd (Middleware.rateLimiterServe windowMs maxRequests calls lm) in
  (is_Some (Auth.requests lm !! k) -> is_Some (Auth.requests lm' !! k)) /\
  (Forall (fun c => Auth.limiterKey (fst c) <> k) calls ->
   Auth.requests lm' !! k = Auth.requests lm !! k).
Proof.
  cbn zeta. revert lm. induction calls as [| [req t] calls IH]; intros lm.
  - cbn. auto.
  - cbn [Middleware.rateLimiterServe].
    destruct (rateLimiter_frame windowMs maxRequests req t lm) as [Hother Hkey].
    cbn zeta in *.
    destruct (Auth.rateLimiter windowMs maxRequests req t lm) as [o lm1].
    specialize (IH lm1).
    destruct (Middleware.rateLimiterServe windowMs maxRequests calls lm1) as [os lm2].
    cbn [fst snd] in *. destruct IH as [IHkeep IHsame]. split.
    + intros Hk. apply IHkeep.
      destruct (decide (k = Auth.limiterKey req)) as [-> | Hne]; [assumption |].
      by rewrite Hother.
    + intros Hcalls. apply Forall_cons in Hcalls as [Hne Hcalls]. cbn [fst] in Hne.
      rewrite (IHsame Hcalls). apply Hother. congruence.
Qed.

Lemma rateLimiterServe_isolation_witness :
  let lm1 := snd (Auth.rateLimiter 1000 1 (Spec.anonymous "10.0.0.1") 0 Auth.freshLimiter) in
  let lm2 := snd (Middleware.rateLimiterServe 1000 1
                    [(Spec.anonymous "10.0.0.2", 5%Z); (Spec.anonymous "10.0.0.2", 6%Z)] lm1) in
  Auth.requests lm2 !! "10.0.0.1" = Some [0%Z].
Proof.
  cbn zeta.
  rewrite (proj2 (rateLimiterServe_isolation 1000 1
             [(Spec.anonymous "10.0.0.2", 5%Z); (Spec.anonymous "10.0.0.2", 6%Z)]
             (snd (Auth.rateLimiter 1000 1 (Spec.anonymous "10.0.0.1") 0 Auth.freshLimiter))
             "10.0.0.1")).
  - reflexivity.
  - repeat constructor; cbn; discriminate.
Defined.

(** X2: starting from a fresh limiter, whatever the callers and the clock
    do, no key ever holds more than [maxRequests] timestamps (none at all
    when [maxRequests] is not positive). *)
Theorem rateLimiterServe_bounded (windowMs maxRequests : Z)
    (calls : list (Auth.Request * Z)) (k : string) (h : list Z) :
  Auth.requests (snd (Middleware.rateLimiterServe windowMs maxRequests calls Auth.freshLimiter))
    !! k = Some h ->
  (Z.of_nat (length h) <= Z.max 0 maxRequests)%Z.
Proof.
  set (bounded := fun lm : Auth.Limiter =>
         forall k h, Auth.requests lm !! k = Some h ->
                     (Z.of_nat (length h) <= Z.max 0 maxRequests)%Z).
  assert (Hstep : forall req t lm,
             bounded lm -> bounded (snd (Auth.rateLimiter windowMs maxRequests req t lm))).
  { intros req t lm Hlm k' h' Hk'.
    destruct (decide (k' = Auth.limiterKey req)) as [-> | Hne].
    - destruct (rateLimiter_cases windowMs maxRequests req t lm) as [Hreject Hadmit].
      cbn zeta in *. unfold Auth.history in *. rewrite Hk' in *. cbn [default from_option id] in *.
      assert (Hpruned : (Z.of_nat (length (Auth.prune windowMs t
                           (default [] (Auth.requests lm !! Auth.limiterKey req))))
                         <= Z.max 0 maxRequests)%Z).
      { pose proof (List.filter_length_le (fun time => (t - time <? windowMs)%Z)
                      (default [] (Auth.requests lm !! Auth.limiterKey req))) as Hle.
        unfold Auth.prune.
        destruct (Auth.requests lm !! Auth.limiterKey req) as [h0 |] eqn:Hh0;
          cbn [default from_option id] in *; [| cbn; lia].
        specialize (Hlm _ _ Hh0). lia. }
      destruct (Z_lt_le_dec
                  (Z.of_nat (length (Auth.prune windowMs t
                     (default [] (Auth.requests lm !! Auth.limiterKey req)))))
                  maxRequests) as [Hlt | Hge].
      + destruct (Hadmit Hlt) as [_ ->]. rewrite length_app. cbn [length]. lia.
      + destruct (Hreject Hge) as [_ ->]. exact Hpruned.
    - destruct (rateLimiter_frame windowMs maxRequests req t lm) as [Hother _].
      cbn zeta in Hother. rewrite Hother in Hk' by done. by apply (Hlm k'). }
  assert (Hrun : forall cs lm,
             bounded lm -> bounded (snd (Middleware.rateLimiterServe windowMs maxRequests cs lm))).
  { induction cs as [| [req t] cs IH]; intros lm Hlm; [exact Hlm |].
    cbn [Middleware.rateLimiterServe].
    specialize (Hstep req t lm Hlm).
    destruct (Auth.rateLimiter windowMs maxRequests req t lm) as [o lm1].
    specialize (IH lm1 Hstep).
    by destruct (Middleware.rateLimiterServe windowMs maxRequests cs lm1) as [os lm2]. }
  apply (Hrun calls Auth.freshLimiter).
  intros k' h' Hk'. cbn in Hk'. by rewrite lookup_empty in Hk'.
Qed.

Lemma rateLimiterServe_bounded_witness :
  let calls := [(Spec.anonymous "10.0.0.1", 0%Z); (Spec.anonymous "10.0.0.1", 1%Z);
                (Spec.anonymous "10.0.0.1", 2%Z)] in
  Auth.requests (snd (Middleware.rateLimiterServe 1000 2 calls Auth.freshLimiter))
    !! "10.0.0.1" = Some [0%Z; 1%Z] /\
  (Z.of_nat (length [0%Z; 1%Z]) <= Z.max 0 2)%Z.
Proof.
  cbn zeta. split; [reflexivity |].
  apply (rateLimiterServe_bounded 1000 2
           [(Spec.anonymous "10.0.0.1", 0%Z); (Spec.anonymous "10.0.0.1", 1%Z);
            (Spec.anonymous "10.0.0.1", 2%Z)] "10.0.0.1" [0%Z; 1%Z]).
  reflexivity.
Defined.

Lemma prune_app (windowMs now : Z) (l1 l2 : list Z) :
  Auth.prune windowMs now (l1 ++ l2) = Auth.prune windowMs now l1 ++ Auth.prune windowMs now l2.
Proof. unfold Auth.prune. apply List.filter_app. Qed.

Lemma prune_prune (windowMs earlier now : Z) (l : list Z) :
  (earlier <= now)%Z ->
  Auth.prune windowMs now (Auth.prune windowMs earlier l) = Auth.prune windowMs now l.
Proof.
  intros Hle. unfold Auth.prune. induction l as [| e l IH]; [reflexivity |].
  cbn [List.filter].
  destruct (earlier - e <? windowMs)%Z eqn:He; cbn [List.filter]; rewrite IH.
  - reflexivity.
  - apply Z.ltb_ge in He.
    assert ((now - e <? windowMs)%Z = false) as -> by (apply Z.ltb_ge; lia).
    reflexivity.
Qed.

Lemma prune_length_le (windowMs now : Z) (l : list Z) :
  (length (Auth.prune windowMs now l) <= length l)%nat.
Proof. unfold Auth.prune. apply List.filter_length_le. Qed.

(** The sliding window, for a key whose live history agrees with a list
    [past] of earlier admissions. *)
Lemma rateLimiterRun_window (windowMs maxRequests : Z) (req : Auth.Request) :
  forall (ts : list Z) (lm : Auth.Limiter) (past : list Z) (from : Z),
    (forall now, (from <= now)%Z ->
       Auth.prune windowMs now (Auth.history lm (Auth.limiterKey req)) =
       Auth.prune windowMs now past) ->
    Middleware.ascending from ts ->
    let outs := fst (Auth.rateLimiterRun windowMs maxRequests req ts lm) in
    forall n t,
      ts !! n = Some t -> outs !! n = Some Auth.Next ->
      (Z.of_nat (length (Auth.prune windowMs t
         (past ++ Middleware.admitted (take (S n) ts) (take (S n) outs)))) <= maxRequests)%Z.
Proof.
  induction ts as [| t0 ts IH]; intros lm past from Hpast Hasc; cbn zeta.
  - intros n t Hn. by rewrite lookup_nil in Hn.
  - destruct Hasc as [Hfrom Hasc]. cbn [Auth.rateLimiterRun].
    destruct (rateLimiter_cases windowMs maxRequests req t0 lm) as [Hreject Hadmit].
    cbn zeta in Hreject, Hadmit. rewrite (Hpast t0 Hfrom) in Hreject, Hadmit.
    destruct (Auth.rateLimiter windowMs maxRequests req t0 lm) as [o lm1].
    cbn [fst snd] in Hreject, Hadmit.
    pose proof (IH lm1) as IH1. cbn zeta in IH1.
    destruct (Auth.rateLimiterRun windowMs maxRequests req ts lm1) as [os lm2].
    cbn [fst snd] in *.
    destruct (Z_lt_le_dec (Z.of_nat (length (Auth.prune windowMs t0 past))) maxRequests)
      as [Hlt | Hge].
    + destruct (Hadmit Hlt) as [-> Hhist].
      assert (Hpast1 : forall now, (t0 <= now)%Z ->
                Auth.prune windowMs now (Auth.history lm1 (Auth.limiterKey req)) =
                Auth.prune windowMs now (past ++ [t0])).
      { intros now Hnow. rewrite Hhist, !prune_app. by rewrite prune_prune. }
      intros [| n] t Hn Hout; cbn [take firstn Middleware.admitted].
      * injection Hn as <-. rewrite !firstn_O. cbn [Middleware.admitted].
        rewrite prune_app, length_app.
        pose proof (prune_length_le windowMs t0 [t0]). cbn [length] in *. lia.
      * cbn in Hn, Hout.
        specialize (IH1 (past ++ [t0]) t0 Hpast1 Hasc n t Hn Hout).
        by rewrite <- app_assoc in IH1.
    + destruct (Hreject Hge) as [-> Hhist].
      assert (Hpast1 : forall now, (t0 <= now)%Z ->
                Auth.prune windowMs now (Auth.history lm1 (Auth.limiterKey req)) =
                Auth.prune windowMs now past).
      { intros now Hnow. rewrite Hhist. by apply prune_prune. }
      intros [| n] t Hn Hout; cbn [take firstn Middleware.admitted].
      * cbn in Hout. discriminate.
      * cbn in Hn, Hout. unfold Spec.rejection. cbn [Middleware.admitted].
        exact (IH1 past t0 Hpast1 Hasc n t Hn Hout).
Qed.

(** X3: the sliding-window guarantee.  For a key with nothing recorded and
    a clock that never runs backwards, whenever a call is admitted, the
    admitted calls of the last [windowMs] milliseconds, this one included,
    number at most [maxRequests]. *)
Theorem rateLimiter_never_exceeds (windowMs maxRequests : Z) (req : Auth.Request)
    (ts : list Z) (lm : Auth.Limiter) (from : Z) (n : nat) (t : Z) :
  Auth.history lm (Auth.limiterKey req) = [] ->
  Middleware.ascending from ts ->
  let outs := fst (Auth.rateLimiterRun windowMs maxRequests req ts lm) in
  ts !! n = Some t -> outs !! n = Some Auth.Next ->
  (Z.of_nat (length (Auth.prune windowMs t
     (Middleware.admitted (take (S n) ts) (take (S n) outs)))) <= maxRequests)%Z.
Proof.
  intros Hfresh Hasc. cbn zeta. intros Hn Hout.
  apply (rateLimiterRun_window windowMs maxRequests req ts lm [] from); try assumption.
  intros now _. by rewrite Hfresh.
Qed.

Lemma rateLimiter_never_exceeds_witness :
  let ts := [0; 400; 800; 1200]%Z in
  let outs := fst (Auth.rateLimiterRun 1000 2 (Spec.anonymous "10.0.0.1") ts Auth.freshLimiter) in
  outs = [Auth.Next; Auth.Next; Spec.rejection 1000; Auth.Next] /\
  (Z.of_nat (length (Auth.prune 1000 1200 (Middleware.admitted (take 4 ts) (take 4 outs))))
     <= 2)%Z.
Proof.
  cbn zeta. split; [reflexivity |].
  apply (rateLimiter_never_exceeds 1000 2 (Spec.anonymous "10.0.0.1")
           [0; 400; 800; 1200]%Z Auth.freshLimiter 0 3 1200).
  - reflexivity.
  - cbn. lia.
  - reflexivity.
  - reflexivity.
Defined.

(** ** The authentication middlewares *)

Lemma validateApiKey_after_create (env : Auth.Env) (generated : string) (t0 now : Z)
    (uid : string) (perms : Js.value) (st : Auth.State) :
  generated <> "" ->
  let st1 := snd (Auth.createApiKey env generated t0 uid perms st) in
  Auth.validateApiKey now (Js.Str generated) st1 =
    (Some {| Auth.p_userId := uid; Auth.p_permissions := perms |},
     {| Auth.apiKeys :=
          <[generated := {| Auth.userId := uid;
                            Auth.hashedKey := Auth.hashSync env generated (Auth.bcryptRounds env);
                            Auth.permissions := perms; Auth.createdAt := t0;
                            Auth.lastUsed := Some now; Auth.isActive := true |}]>
            (Auth.apiKeys st1);
        Auth.users := Auth.users st1; Auth.log := Auth.log st1 |}).
Proof.
  intros Hne. cbn zeta. unfold Auth.validateApiKey.
  assert (Js.truthy (Js.Str generated) = true) as ->.
  { cbn. destruct (String.eqb_spec generated ""); [contradiction | reflexivity]. }
  cbn [negb Auth.getKey Auth.createApiKey snd Auth.apiKeys].
  by rewrite lookup_insert_eq.
Qed.



(** X5: a request without a usable key is answered 401 and changes
    nothing.  With no key at all the answer is [MISSING_API_KEY] and nothing
    is logged; with a key that is not in the store, or whose record is
    inactive, it is [INVALID_API_KEY], no record is touched, and the one
    security event logged carries the caller's address and not the key
    presented. *)
Theorem authenticateApiKey_rejects (now : Z) (req : Middleware.HttpRequest) (st : Auth.State) :
  let apiKey := Middleware.orElse (Middleware.headerApiKey req) (Middleware.queryApiKey req) in
  (Js.truthy apiKey = false ->
   Middleware.authenticateApiKey now req st =
     (Auth.Respond 401 [("error", Js.Str "API key required");
                        ("code", Js.Str "MISSING_API_KEY")], req, st)) /\
  (Js.truthy apiKey = true ->
   (Auth.getKey st apiKey = None \/
    exists kd, Auth.getKey st apiKey = Some kd /\ Auth.isActive kd = false) ->
   Middleware.authenticateApiKey now req st =
     (Auth.Respond 401 [("error", Js.Str "Invalid API key");
                        ("code", Js.Str "INVALID_API_KEY")], req,
      {| Auth.apiKeys := Auth.apiKeys st; Auth.users := Auth.users st;
         Auth.log := Auth.log st ++
           [Logger.SecurityEvent "INVALID_API_KEY" "warning"
              [("ip", Js.Str (Middleware.ip req))]] |})).
Proof.
  cbn zeta. unfold Middleware.authenticateApiKey. split.
  - by intros ->.
  - intros -> Hbad. cbn [negb].
    assert (Hnull : Auth.validateApiKey now
                      (Middleware.orElse (Middleware.headerApiKey req)
                                         (Middleware.queryApiKey req)) st = (None, st)).
    { unfold Auth.validateApiKey.
      destruct (negb (Js.truthy _)); [reflexivity |].
      destruct Hbad as [Hnone | (kd & Hsome & Hoff)].
      - destruct (Middleware.orElse _ _); cbn in *; try reflexivity. by rewrite Hnone.
      - destruct (Middleware.orElse _ _); cbn in *; try reflexivity. by rewrite Hsome, Hoff. }
    by rewrite Hnull.
Qed.

Lemma authenticateApiKey_rejects_witness :
  Js.truthy (Middleware.orElse Js.Undefined (Js.Str "guess")) = true /\
  fst (fst (Middleware.authenticateApiKey 5 (Samples.bareRequest Js.Undefined (Js.Str "guess"))
              Auth.initial)) =
    Auth.Respond 401 [("error", Js.Str "Invalid API key"); ("code", Js.Str "INVALID_API_KEY")].
Proof.
  split; [reflexivity |].
  rewrite (proj2 (authenticateApiKey_rejects 5 (Samples.bareRequest Js.Undefined (Js.Str "guess"))
                    Auth.initial)).
  - reflexivity.
  - reflexivity.
  - left. reflexivity.
Defined.

(** X6: key, authentication and authorization composed.  A request that
    presents a key created with the permission list [ps] gets through
    [authenticateApiKey] and then through [requirePermission(p)] exactly when
    [ps] contains [p], ['admin'] or ['*']; otherwise the second middleware
    answers 403. *)
Theorem requirePermission_after_authenticate (env : Auth.Env) (generated : string)
    (t0 now : Z) (uid : string) (ps : list string) (p : string) (st : Auth.State)
    (req : Middleware.HttpRequest) :
  generated <> "" ->
  Middleware.orElse (Middleware.headerApiKey req) (Middleware.queryApiKey req)
    = Js.Str generated ->
  let st1 := snd (Auth.createApiKey env generated t0 uid (Js.Array ps) st) in
  let authenticated := Middleware.authenticateApiKey now req st1 in
  let checked := Middleware.requirePermission p (snd (fst authenticated)) (snd authenticated) in
  fst (fst authenticated) = Auth.Next /\
  (fst checked = Auth.Next <-> p ∈ ps \/ "admin" ∈ ps \/ "*" ∈ ps) /\
  (fst checked = Auth.Next \/
   fst checked = Auth.Respond 403 [("error", Js.Str "Insufficient permissions");
                                   ("code", Js.Str "INSUFFICIENT_PERMISSIONS");
                                   ("requiredPermission", Js.Str p)]).
Proof.
  intros Hne Hkey. cbn zeta.
  unfold Middleware.authenticateApiKey. rewrite Hkey.
  assert (Js.truthy (Js.Str generated) = true) as ->.
  { cbn. destruct (String.eqb_spec generated ""); [contradiction | reflexivity]. }
  cbn [negb].
  rewrite (validateApiKey_after_create env generated t0 now uid (Js.Array ps) st Hne).
  cbn [fst snd]. split; [reflexivity |].
  unfold Middleware.requirePermission.
  cbn [Middleware.setUser Middleware.user Auth.ru_permissions Auth.p_permissions].
  assert (Hhas : Auth.hasPermission (Js.Array ps) p = true <->
                 p ∈ ps \/ "admin" ∈ ps \/ "*" ∈ ps).
  { unfold Auth.hasPermission. cbn [Js.truthy Js.isArray negb orb].
    rewrite !orb_true_iff, !includes_elem_of. tauto. }
  destruct (Auth.hasPermission (Js.Array ps) p); cbn [negb fst].
  - split; [| by left]. split; [intros _; by apply Hhas | reflexivity].
  - split; [| by right]. split; [discriminate |].
    intros Hin. apply Hhas in Hin. discriminate.
Qed.

Lemma requirePermission_after_authenticate_witness :
  let st1 := snd (Auth.createApiKey Spec.demoEnv "c0ffee" 0 "user_1" (Js.Array ["*"])
                    Auth.initial) in
  let authenticated :=
    Middleware.authenticateApiKey 5 (Samples.bareRequest (Js.Str "c0ffee") Js.Undefined) st1 in
  "c0ffee" <> "" /\
  fst (Middleware.requirePermission "delete_message"
         (snd (fst authenticated)) (snd authenticated)) = Auth.Next.
Proof.
  cbn zeta. split; [discriminate |].
  apply (requirePermission_after_authenticate Spec.demoEnv "c0ffee" 0 5 "user_1" ["*"]
           "delete_message" Auth.initial (Samples.bareRequest (Js.Str "c0ffee") Js.Undefined)).
  - discriminate.
  - reflexivity.
  - right. right. apply elem_of_cons. by left.
Defined.

(** X7: tenant scoping.  For an authenticated user with the permission
    list [ps] and a request naming the bot [b], [requireBotAccess] passes the
    request on, with [req.botId] set, exactly when [ps] contains ['admin'],
    ['*'] or the string ["bot:" + b]; any other permission, [send_message]
    included, gets 403 [BOT_ACCESS_DENIED]. *)
Theorem requireBotAccess_scope (req : Middleware.HttpRequest) (u : Auth.ReqUser)
    (ps : list string) (b : string) :
  Middleware.paramsBotId req = Js.Str b -> b <> "" ->
  Middleware.user req = Some u -> Auth.ru_permissions u = Js.Array ps ->
  (Middleware.requireBotAccess req =
     Js.Return (Auth.Next, Middleware.setBotId (Js.Str b) req) <->
   "admin" ∈ ps \/ "*" ∈ ps \/ ("bot:" +:+ b) ∈ ps) /\
  (Middleware.requireBotAccess req =
     Js.Return (Auth.Next, Middleware.setBotId (Js.Str b) req) \/
   Middleware.requireBotAccess req =
     Js.Return (Auth.Respond 403 [("error", Js.Str "Access denied to bot");
                                  ("code", Js.Str "BOT_ACCESS_DENIED");
                                  ("botId", Js.Str b)], req)).
Proof.
  intros Hb Hne Hu Hps.
  assert (Htruthy : Js.truthy (Js.Str b) = true).
  { cbn. destruct (String.eqb_spec b ""); [contradiction | reflexivity]. }
  unfold Middleware.requireBotAccess, Middleware.findBotId.
  rewrite Hb, Htruthy. cbn [Js.bind]. rewrite Htruthy, Hu, Hps.
  cbn [negb Middleware.toString].
  unfold Auth.hasPermission. cbn [Js.truthy Js.isArray negb orb].
  destruct (Js.includes ps "admin") eqn:Hadmin; cbn [orb negb andb].
  { split; [| by left]. split; [| reflexivity].
    intros _. left. by apply includes_elem_of. }
  destruct (Js.includes ps "*") eqn:Hstar; cbn [orb negb andb].
  { split; [| by left]. split; [| reflexivity].
    intros _. right. left. by apply includes_elem_of. }
  rewrite !orb_false_r.
  destruct (Js.includes ps ("bot:" +:+ b)) eqn:Hbot; cbn [negb].
  - split; [| by left]. split; [| reflexivity].
    intros _. right. right. by apply includes_elem_of.
  - split; [| by right]. split; [discriminate |].
    intros [H | [H | H]]; apply includes_elem_of in H; congruence.
Qed.

Lemma requireBotAccess_scope_witness :
  "default" <> "" /\
  Middleware.requireBotAccess (Samples.botRequest "default" ["send_message"]) <>
    Js.Return (Auth.Next,
               Middleware.setBotId (Js.Str "default")
                 (Samples.botRequest "default" ["send_message"])).
Proof.
  split; [discriminate |]. intros Hpass.
  apply (proj1 (requireBotAccess_scope (Samples.botRequest "default" ["send_message"])
                  {| Auth.ru_id := "user_1"; Auth.ru_permissions := Js.Array ["send_message"];
                     Auth.ru_authType := "api_key" |}
                  ["send_message"] "default" eq_refl ltac:(discriminate) eq_refl eq_refl))
    in Hpass.
  destruct Hpass as [H | [H | H]];
    apply elem_of_cons in H as [H | H]; try discriminate; by apply not_elem_of_nil in H.
Defined.

(** X8: [requireBotAccess] reads [req.user.permissions] without checking
    that the request was authenticated: on a request with no [req.user] that
    names a bot it throws instead of answering, while one that names no bot
    is answered 400 [MISSING_BOT_ID] before the user is looked at. *)
Theorem requireBotAccess_unauthenticated (req : Middleware.HttpRequest) :
  Middleware.user req = None ->
  (forall b, Middleware.findBotId req = Js.Return b -> Js.truthy b = true ->
     Middleware.requireBotAccess req =
       Js.Throw "TypeError: Cannot read properties of undefined (reading 'permissions')") /\
  (forall b, Middleware.findBotId req = Js.Return b -> Js.truthy b = false ->
     Middleware.requireBotAccess req =
       Js.Return (Auth.Respond 400 [("error", Js.Str "Bot ID required");
                                    ("code", Js.Str "MISSING_BOT_ID")], req)).
Proof.
  intros Hu. unfold Middleware.requireBotAccess. split; intros b -> Hb; cbn [Js.bind].
  - by rewrite Hb, Hu.
  - by rewrite Hb.
Qed.

Lemma requireBotAccess_unauthenticated_witness :
  Middleware.user (Samples.bareRequest Js.Undefined Js.Undefined) = None /\
  Middleware.requireBotAccess (Samples.bareRequest Js.Undefined Js.Undefined) =
    Js.Return (Auth.Respond 400 [("error", Js.Str "Bot ID required");
                                 ("code", Js.Str "MISSING_BOT_ID")],
               Samples.bareRequest Js.Undefined Js.Undefined).
Proof.
  split; [reflexivity |].
  apply (proj2 (requireBotAccess_unauthenticated (Samples.bareRequest Js.Undefined Js.Undefined)
                  eq_refl) Js.Undefined); reflexivity.
Defined.

(** ** The bot registry under failures and over time *)

(** X9: a start whose login is rejected leaves no entry behind.  It throws
    the login error and [activeBots] is as before, so that a later start of
    the same id whose login resolves registers the bot, with a new client. *)
Theorem startBot_failed_login_leaves_no_entry (e : string) (now1 now2 : Z)
    (botConfig : BotManager.BotConfig) (st : BotManager.State) :
  BotManager.activeBots st !! BotManager.id botConfig = None ->
  let failed := BotManager.startBot (Some e) now1 botConfig st in
  let retried := BotManager.startBot None now2 botConfig (snd failed) in
  fst failed = Js.Throw e /\
  BotManager.activeBots (snd failed) = BotManager.activeBots st /\
  fst retried = Js.Return (BotManager.NewClient (S (BotManager.clients st))) /\
  BotManager.activeBots (snd retried) !! BotManager.id botConfig =
    Some {| BotManager.client := S (BotManager.clients st); BotManager.config := botConfig;
            BotManager.startedAt := now2; BotManager.isActive := true |}.
Proof.
  intros Hfree. cbn zeta.
  assert (H1 : BotManager.startBot (Some e) now1 botConfig st =
               (Js.Throw e,
                {| BotManager.activeBots := BotManager.activeBots st;
                   BotManager.clients := S (BotManager.clients st);
                   BotManager.log := BotManager.log st ++
                     [Logger.DiscordError "BOT_START_ERROR" e] |})).
  { unfold BotManager.startBot. by rewrite Hfree. }
  rewrite H1. cbn [fst snd BotManager.activeBots].
  split; [reflexivity |]. split; [reflexivity |].
  unfold BotManager.startBot. cbn [BotManager.activeBots]. rewrite Hfree.
  cbn [BotManager.createBot fst snd BotManager.activeBots BotManager.clients].
  split; [reflexivity |]. apply lookup_insert_eq.
Qed.

Lemma startBot_failed_login_leaves_no_entry_witness :
  let failed := BotManager.startBot (Some "TokenInvalid") 100 Spec.demoBot BotManager.initial in
  BotManager.activeBots BotManager.initial !! "default" = None /\
  fst failed = Js.Throw "TokenInvalid" /\
  BotManager.activeBots (snd failed) = BotManager.activeBots BotManager.initial.
Proof.
  cbn zeta. split; [reflexivity |].
  destruct (startBot_failed_login_leaves_no_entry "TokenInvalid" 100 200 Spec.demoBot
              BotManager.initial eq_refl) as (Hthrow & Hsame & _).
  split; [exact Hthrow | exact Hsame].
Defined.

(** X10: [stopBot] on an id that is not registered resolves with [false]
    and leaves the registry alone; a stop whose [destroy] rejects throws and
    keeps the entry, so that [getBot] still finds the bot and a second stop
    can remove it, after which a third finds nothing to stop. *)
Theorem stopBot_failure_keeps_entry (e : string) (botId : string) (st : BotManager.State) :
  (BotManager.activeBots st !! botId = None ->
   forall destroy,
     fst (BotManager.stopBot destroy botId st) = Js.Return false /\
     BotManager.activeBots (snd (BotManager.stopBot destroy botId st)) =
       BotManager.activeBots st) /\
  (forall running, BotManager.activeBots st !! botId = Some running ->
     let failed := BotManager.stopBot (Some e) botId st in
     let second := BotManager.stopBot None botId (snd failed) in
     let third := BotManager.stopBot None botId (snd second) in
     fst failed = Js.Throw e /\
     BotManager.getBot botId (snd failed) = Some running /\
     fst second = Js.Return true /\
     BotManager.getBot botId (snd second) = None /\
     fst third = Js.Return false).
Proof.
  split.
  - intros Hnone destroy. unfold BotManager.stopBot. rewrite Hnone. by split.
  - intros running Hreg. cbn zeta.
    assert (H1 : BotManager.stopBot (Some e) botId st =
                 (Js.Throw e,
                  {| BotManager.activeBots := BotManager.activeBots st;
                     BotManager.clients := BotManager.clients st;
                     BotManager.log := BotManager.log st ++
                       [Logger.DiscordError "BOT_STOP_ERROR" e] |})).
    { unfold BotManager.stopBot. by rewrite Hreg. }
    rewrite H1. cbn [fst snd].
    set (st1 := {| BotManager.activeBots := BotManager.activeBots st;
                   BotManager.clients := BotManager.clients st; BotManager.log := _ |}).
    split; [reflexivity |]. split; [exact Hreg |].
    assert (H2 : BotManager.stopBot None botId st1 =
                 (Js.Return true,
                  {| BotManager.activeBots := delete botId (BotManager.activeBots st1);
                     BotManager.clients := BotManager.clients st1;
                     BotManager.log := BotManager.log st1 ++
                       [Logger.Info ("Bot " +:+ botId +:+ " stopped successfully");
                        Logger.DiscordEvent "BOT_STOPPED"
                          [("botId", Js.Str botId);
                           ("botName",
                            Js.Str (BotManager.name (BotManager.config running)))]] |})).
    { unfold BotManager.stopBot. change (BotManager.activeBots st1) with (BotManager.activeBots st).
      by rewrite Hreg. }
    rewrite H2. cbn [fst snd].
    set (st2 := {| BotManager.activeBots := delete botId (BotManager.activeBots st1);
                   BotManager.clients := BotManager.clients st1; BotManager.log := _ |}).
    assert (Hgone : BotManager.activeBots st2 !! botId = None) by apply lookup_delete_eq.
    split; [reflexivity |]. split; [exact Hgone |].
    unfold BotManager.stopBot. by rewrite Hgone.
Qed.

Lemma stopBot_failure_keeps_entry_witness :
  let st := snd (BotManager.startBot None 100 Spec.demoBot BotManager.initial) in
  let failed := BotManager.stopBot (Some "socket closed") "default" st in
  fst failed = Js.Throw "socket closed" /\
  BotManager.getBot "default" (snd failed) =
    Some {| BotManager.client := 0; BotManager.config := Spec.demoBot;
            BotManager.startedAt := 100; BotManager.isActive := true |}.
Proof.
  cbn zeta.
  destruct (proj2 (stopBot_failure_keeps_entry "socket closed" "default"
                     (snd (BotManager.startBot None 100 Spec.demoBot BotManager.initial)))
              {| BotManager.client := 0; BotManager.config := Spec.demoBot;
                 BotManager.startedAt := 100; BotManager.isActive := true |} eq_refl)
    as (Hthrow & Hfound & _).
  split; [exact Hthrow | exact Hfound].
Defined.

Lemma perform_wellFormed (op : Dispatch.Op) (st : BotManager.State) :
  Dispatch.wellFormed st -> Dispatch.wellFormed (Dispatch.perform op st).
Proof.
  intros [Hentry Hdistinct]. destruct op as [login now botConfig | destroy botId];
    cbn [Dispatch.perform].
  - unfold BotManager.startBot.
    destruct (BotManager.activeBots st !! BotManager.id botConfig) as [running |] eqn:Hreg.
    { cbn [snd]. split; [exact Hentry | exact Hdistinct]. }
    cbn [BotManager.createBot]. destruct login as [e |]; cbn [snd].
    + split.
      * intros i b Hb. cbn [BotManager.activeBots BotManager.clients] in *.
        destruct (Hentry i b Hb) as (? & ? & ?). repeat split; [assumption | lia | assumption].
      * exact Hdistinct.
    + split.
      * intros i b. cbn [BotManager.activeBots BotManager.clients].
        rewrite lookup_insert. case_decide as Hi.
        -- intros [= <-]. cbn. repeat split; [congruence | lia].
        -- intros Hb. destruct (Hentry i b Hb) as (? & ? & ?).
           repeat split; [assumption | lia | assumption].
      * intros i j bi bj. cbn [BotManager.activeBots].
        rewrite !lookup_insert. repeat case_decide; intros Hbi Hbj Hc.
        -- congruence.
        -- injection Hbi as <-. cbn in Hc. destruct (Hentry j bj Hbj) as (_ & Hlt & _). lia.
        -- injection Hbj as <-. cbn in Hc. destruct (Hentry i bi Hbi) as (_ & Hlt & _). lia.
        -- by apply (Hdistinct i j bi bj).
  - unfold BotManager.stopBot.
    destruct (BotManager.activeBots st !! botId) as [running |] eqn:Hreg.
    2: { cbn [snd]. split; [exact Hentry | exact Hdistinct]. }
    destruct destroy as [e |]; cbn [snd].
    { split; [exact Hentry | exact Hdistinct]. }
    split.
    + intros i b. cbn [BotManager.activeBots BotManager.clients].
      rewrite lookup_delete. case_decide; [discriminate |]. apply Hentry.
    + intros i j bi bj. cbn [BotManager.activeBots].
      rewrite !lookup_delete. repeat case_decide; try discriminate. apply Hdistinct.
Qed.

(** X11: whatever starts and stops are made, succeeding or failing, every
    entry of [activeBots] is filed under the id its own configuration
    carries, is marked active, holds a client that was constructed by
    [createBot], and no two ids share a client. *)
Theorem registry_wellFormed (ops : list Dispatch.Op) :
  Dispatch.wellFormed (Dispatch.performAll ops BotManager.initial).
Proof.
  unfold Dispatch.performAll.
  assert (Hinit : Dispatch.wellFormed BotManager.initial).
  { split.
    - intros i b Hb. cbn in Hb. by rewrite lookup_empty in Hb.
    - intros i j bi bj Hb. cbn in Hb. by rewrite lookup_empty in Hb. }
  revert Hinit. generalize BotManager.initial.
  induction ops as [| op ops IH]; intros st Hst; [exact Hst |].
  cbn [fold_left]. apply IH. by apply perform_wellFormed.
Qed.

(** ** Sending *)

(** X12: [sendMessage] needs a registered bot and never registers or
    removes one.  For an id that is not in [activeBots], in particular one
    that [stopBot] has just removed, it throws "Bot <id> is not running",
    logs the error and makes no call to the platform. *)
Theorem sendMessage_requires_registered_bot (platform : Dispatch.Platform)
    (botId channelId : string) (content : Js.value) (st : BotManager.State) :
  BotManager.activeBots (snd (fst (Dispatch.sendMessage platform botId channelId content st)))
    = BotManager.activeBots st /\
  (BotManager.activeBots st !! botId = None ->
   Dispatch.sendMessage platform botId channelId content st =
     (Js.Throw ("Bot " +:+ botId +:+ " is not running"),
      Dispatch.logError "SEND_MESSAGE_ERROR" ("Bot " +:+ botId +:+ " is not running") st,
      [])) /\
  (forall running, BotManager.activeBots st !! botId = Some running ->
     let stopped := snd (BotManager.stopBot None botId st) in
     Dispatch.sendMessage platform botId channelId content stopped =
       (Js.Throw ("Bot " +:+ botId +:+ " is not running"),
        Dispatch.logError "SEND_MESSAGE_ERROR" ("Bot " +:+ botId +:+ " is not running") stopped,
        [])).
Proof.
  assert (Habsent : forall st0, BotManager.activeBots st0 !! botId = None ->
            Dispatch.sendMessage platform botId channelId content st0 =
              (Js.Throw ("Bot " +:+ botId +:+ " is not running"),
               Dispatch.logError "SEND_MESSAGE_ERROR"
                 ("Bot " +:+ botId +:+ " is not running") st0, [])).
  { intros st0 Hnone. unfold Dispatch.sendMessage, Dispatch.sendBody. by rewrite Hnone. }
  split; [| split].
  - unfold Dispatch.sendMessage.
    destruct (Dispatch.sendBody platform botId channelId content st) as [[[m logged] | e] calls];
      reflexivity.
  - apply Habsent.
  - intros running Hreg. cbn zeta. apply Habsent.
    unfold BotManager.stopBot. rewrite Hreg. cbn [snd BotManager.activeBots].
    apply lookup_delete_eq.
Qed.

Lemma sendMessage_requires_registered_bot_witness :
  BotManager.activeBots BotManager.initial !! "default" = None /\
  Dispatch.sendMessage Samples.obligingPlatform "default" "general" (Js.Str "hello")
    BotManager.initial =
  (Js.Throw "Bot default is not running",
   Dispatch.logError "SEND_MESSAGE_ERROR" "Bot default is not running" BotManager.initial,
   []).
Proof.
  split; [reflexivity |].
  apply (proj1 (proj2 (sendMessage_requires_registered_bot Samples.obligingPlatform
                         "default" "general" (Js.Str "hello") BotManager.initial))).
  reflexivity.
Defined.

(** X13: moderation gates sending.  Whenever the verdict on the content is
    not approved, [handleSendMessage] makes no call to the platform and
    leaves the registry and its log untouched: it resolves with the refusal
    carrying the verdict's reason, severity and actions (or has already
    thrown for a missing parameter). *)
Theorem handleSendMessage_refuses_rejected_content (cfg : ContentModerator.Config)
    (rules : ContentModerator.Rules) (platform : Dispatch.Platform) (now : Z)
    (botId channelId : string) (content : Js.value) (w : Server.World) :
  let verdict :=
    fst (ContentModerator.moderateContent cfg rules now content "mcp-user" channelId
           "unknown-guild" (Server.securityLog w)) in
  ContentModerator.isApproved verdict = false ->
  let out := Server.handleSendMessage cfg rules platform now botId channelId content w in
  Server.platformCalls (snd out) = Server.platformCalls w /\
  Server.bots (snd out) = Server.bots w /\
  (fst out = Js.Throw "Missing required parameters: botId, channelId, content" \/
   fst out = Js.Return (Server.SendRefused (ContentModerator.reason verdict)
                          (ContentModerator.severity verdict)
                          (ContentModerator.actions verdict))).
Proof.
  cbn zeta. intros Hrejected. unfold Server.handleSendMessage.
  destruct (negb (Js.truthy (Js.Str botId)) || negb (Js.truthy (Js.Str channelId)) ||
            negb (Js.truthy content)).
  - cbn [fst snd]. auto.
  - destruct (ContentModerator.moderateContent cfg rules now content "mcp-user" channelId
                "unknown-guild" (Server.securityLog w)) as [verdict log1].
    cbn [fst] in Hrejected. rewrite Hrejected. cbn [negb fst snd Server.platformCalls Server.bots].
    auto.
Qed.

Lemma handleSendMessage_refuses_rejected_content_witness :
  let out := Server.handleSendMessage ContentModerator.defaultConfig
               (ContentModerator.moderationRules ContentModerator.defaultConfig)
               Samples.obligingPlatform 0 "default" "general" (Js.Str "zzzzzz")
               Samples.emptyWorld in
  Server.platformCalls (snd out) = [].
Proof.
  cbn zeta.
  apply (handleSendMessage_refuses_rejected_content ContentModerator.defaultConfig
           (ContentModerator.moderationRules ContentModerator.defaultConfig)
           Samples.obligingPlatform 0 "default" "general" (Js.Str "zzzzzz")
           Samples.emptyWorld).
  vm_compute. reflexivity.
Defined.

(** X14: content that is not a string is never moderated.  With moderation
    enabled, a truthy value that is not a string makes the rules throw, so
    the verdict is the fail-open approval, and [handleSendMessage] goes on to
    [sendMessage] with it: the platform calls and the registry state are
    those of that [sendMessage]. *)
Theorem handleSendMessage_sends_unmoderated_values (cfg : ContentModerator.Config)
    (rules : ContentModerator.Rules) (platform : Dispatch.Platform) (now : Z)
    (botId channelId : string) (content : Js.value) (w : Server.World) :
  ContentModerator.enabled cfg = true ->
  botId <> "" -> channelId <> "" ->
  Js.truthy content = true -> (forall s, content <> Js.Str s) ->
  let out := Server.handleSendMessage cfg rules platform now botId channelId content w in
  let sent := Dispatch.sendMessage platform botId channelId content (Server.bots w) in
  ContentModerator.isApproved
    (fst (ContentModerator.moderateContent cfg rules now content "mcp-user" channelId
            "unknown-guild" (Server.securityLog w))) = true /\
  Server.platformCalls (snd out) = Server.platformCalls w ++ snd sent /\
  Server.bots (snd out) = snd (fst sent).
Proof.
  intros Hon Hbot Hchannel Htruthy Hns. cbn zeta.
  destruct (runChecks_non_string cfg rules now content Hns) as [e He].
  assert (Hverdict : ContentModerator.moderateContent cfg rules now content "mcp-user"
                       channelId "unknown-guild" (Server.securityLog w) =
                     (ContentModerator.result now true "Moderation check failed"
                        ContentModerator.low [],
                      Server.securityLog w ++ [Logger.Error "Content moderation error:" e])).
  { unfold ContentModerator.moderateContent, ContentModerator.moderateBody.
    by rewrite Hon, He. }
  unfold Server.handleSendMessage. rewrite Hverdict, Htruthy.
  assert (Js.truthy (Js.Str botId) = true) as ->.
  { cbn. destruct (String.eqb_spec botId ""); [contradiction | reflexivity]. }
  assert (Js.truthy (Js.Str channelId) = true) as ->.
  { cbn. destruct (String.eqb_spec channelId ""); [contradiction | reflexivity]. }
  cbn [negb orb fst ContentModerator.result ContentModerator.isApproved].
  destruct (Dispatch.sendMessage platform botId channelId content (Server.bots w))
    as [[sent bots1] calls].
  cbn [fst snd Server.platformCalls Server.bots]. auto.
Qed.

Lemma handleSendMessage_sends_unmoderated_values_witness :
  let w := {| Server.bots := snd (BotManager.startBot None 100 Spec.demoBot BotManager.initial);
              Server.securityLog := []; Server.platformCalls := [] |} in
  let out := Server.handleSendMessage ContentModerator.defaultConfig
               (ContentModerator.moderationRules ContentModerator.defaultConfig)
               Samples.obligingPlatform 0 "default" "general" (Js.Array ["spam"; "scam"; "malware"])
               w in
  Js.truthy (Js.Array ["spam"; "scam"; "malware"]) = true /\
  Server.platformCalls (snd out) =
    [Dispatch.Fetched 0 "general";
     Dispatch.Sent "general" (Js.Array ["spam"; "scam"; "malware"])].
Proof.
  cbn zeta. split; [reflexivity |].
  rewrite (proj1 (proj2 (handleSendMessage_sends_unmoderated_values
             ContentModerator.defaultConfig
             (ContentModerator.moderationRules ContentModerator.defaultConfig)
             Samples.obligingPlatform 0 "default" "general"
             (Js.Array ["spam"; "scam"; "malware"])
             {| Server.bots := snd (BotManager.startBot None 100 Spec.demoBot BotManager.initial);
                Server.securityLog := []; Server.platformCalls := [] |}
             eq_refl ltac:(discriminate) ltac:(discriminate) eq_refl ltac:(discriminate)))).
  reflexivity.
Defined.

(** ** Parsing the configuration *)

Ltac by_character c :=
  destruct c as [[] [] [] [] [] [] [] []]; vm_compute; reflexivity.

Lemma lowerChar_idem (c : ascii) : Js.lowerChar (Js.lowerChar c) = Js.lowerChar c.
Proof. by_character c. Qed.

Lemma isSpace_lowerChar (c : ascii) : Regex.isSpace (Js.lowerChar c) = Regex.isSpace c.
Proof. by_character c. Qed.

Lemma toLowerCase_idem (s : string) : Js.toLowerCase (Js.toLowerCase s) = Js.toLowerCase s.
Proof.
  induction s as [| c s IH]; [reflexivity |].
  cbn [Js.toLowerCase]. by rewrite lowerChar_idem, IH.
Qed.

Lemma toLowerCase_empty (s : string) : Js.toLowerCase s = "" <-> s = "".
Proof. destruct s; cbn; split; congruence. Qed.

Lemma trimStart_toLowerCase (s : string) :
  Config.trimStart (Js.toLowerCase s) = Js.toLowerCase (Config.trimStart s).
Proof.
  induction s as [| c s IH]; [reflexivity |].
  cbn [Js.toLowerCase Config.trimStart]. rewrite isSpace_lowerChar.
  by destruct (Regex.isSpace c).
Qed.

Lemma trimEnd_toLowerCase (s : string) :
  Config.trimEnd (Js.toLowerCase s) = Js.toLowerCase (Config.trimEnd s).
Proof.
  induction s as [| c s IH]; [reflexivity |].
  cbn [Js.toLowerCase Config.trimEnd]. rewrite IH, isSpace_lowerChar.
  destruct (Config.trimEnd s); cbn [Js.toLowerCase]; [| reflexivity].
  by destruct (Regex.isSpace c).
Qed.

Lemma trim_toLowerCase (s : string) :
  Config.trim (Js.toLowerCase s) = Js.toLowerCase (Config.trim s).
Proof. unfold Config.trim. by rewrite trimStart_toLowerCase, trimEnd_toLowerCase. Qed.

Lemma trimEnd_idem (s : string) : Config.trimEnd (Config.trimEnd s) = Config.trimEnd s.
Proof.
  induction s as [| c s IH]; [reflexivity |].
  cbn [Config.trimEnd].
  destruct (Config.trimEnd s) as [| d r] eqn:Hr.
  - destruct (Regex.isSpace c) eqn:Hc; [reflexivity |].
    cbn [Config.trimEnd]. by rewrite Hc.
  - cbn [Config.trimEnd]. cbn [Config.trimEnd] in IH.
    by rewrite IH.
Qed.

Lemma trimStart_headed (s : string) : Config.headed (Config.trimStart s).
Proof.
  induction s as [| c s IH]; [exact I |].
  cbn [Config.trimStart]. destruct (Regex.isSpace c) eqn:Hc; [exact IH | exact Hc].
Qed.

Lemma headed_trimStart (s : string) : Config.headed s -> Config.trimStart s = s.
Proof. destruct s as [| c s]; [reflexivity |]. cbn. by intros ->. Qed.

Lemma trimEnd_headed (s : string) : Config.headed s -> Config.headed (Config.trimEnd s).
Proof.
  destruct s as [| c s]; [intros _; exact I |]. cbn [Config.headed Config.trimEnd]. intros Hc.
  destruct (Config.trimEnd s); [rewrite Hc |]; exact Hc.
Qed.

Lemma trim_idem (s : string) : Config.trim (Config.trim s) = Config.trim s.
Proof.
  unfold Config.trim.
  rewrite (headed_trimStart (Config.trimEnd (Config.trimStart s))).
  - apply trimEnd_idem.
  - apply trimEnd_headed, trimStart_headed.
Qed.

Lemma length_positive (s : string) : (0 <? String.length s)%nat = true <-> s <> "".
Proof. destruct s; cbn; split; congruence. Qed.

Lemma stored_normal (piece : string) :
  Js.toLowerCase (Config.trim piece) <> "" ->
  Words.stored (Js.toLowerCase (Config.trim piece)).
Proof.
  intros Hne. split; [exact Hne |]. split; [apply toLowerCase_idem |].
  by rewrite trim_toLowerCase, trim_idem.
Qed.

Lemma newSet_subset (ws seen : list string) (w : string) :
  In w (ContentModerator.newSet ws seen) -> In w ws.
Proof.
  revert seen. induction ws as [| x ws IH]; intros seen; cbn [ContentModerator.newSet].
  - intros [].
  - destruct (Js.includes seen x).
    + intros Hin. right. by apply (IH seen).
    + intros [<- | Hin]; [by left | right; by apply (IH (x :: seen))].
Qed.

(** X15: the words [parseForbiddenWords] reads off the environment, and so
    the words of the [moderationRules] built from them, are all in stored
    form: none is empty, each is lower-case and none has white space at
    either end, whatever the string holds. *)
Theorem parseForbiddenWords_stored (wordsString : string) (cfg : ContentModerator.Config) :
  Forall Words.stored (Config.parseForbiddenWords wordsString) /\
  (ContentModerator.forbiddenWords cfg = Config.parseForbiddenWords wordsString ->
   Forall Words.stored (ContentModerator.forbidden (ContentModerator.moderationRules cfg))).
Proof.
  assert (Hparsed : Forall Words.stored (Config.parseForbiddenWords wordsString)).
  { apply List.Forall_forall. intros w Hw. unfold Config.parseForbiddenWords in Hw.
    apply List.filter_In in Hw as [Hw Hlen]. apply List.in_map_iff in Hw as (piece & <- & _).
    apply stored_normal. by apply length_positive. }
  split; [exact Hparsed |].
  intros Hcfg. apply List.Forall_forall. intros w Hw.
  unfold ContentModerator.moderationRules in Hw. cbn [ContentModerator.forbidden] in Hw.
  apply newSet_subset in Hw. rewrite Hcfg in Hw.
  rewrite List.Forall_forall in Hparsed. by apply Hparsed.
Qed.

Lemma parseForbiddenWords_stored_witness :
  ContentModerator.forbiddenWords ContentModerator.defaultConfig =
    Config.parseForbiddenWords "spam,scam,malware" /\
  Forall Words.stored
    (ContentModerator.forbidden (ContentModerator.moderationRules ContentModerator.defaultConfig)).
Proof.
  split; [reflexivity |].
  apply (proj2 (parseForbiddenWords_stored "spam,scam,malware" ContentModerator.defaultConfig)).
  reflexivity.
Defined.

Lemma fold_addIntent_testbit (names : list string) (acc : Z) (b : Z) :
  Z.testbit (fold_left Config.addIntent names acc) b =
  Z.testbit acc b ||
  existsb (fun name => match Config.intentFlag name with
                       | Some flag => Z.testbit flag b
                       | None => false
                       end) names.
Proof.
  revert acc. induction names as [| name names IH]; intros acc; cbn [fold_left existsb].
  - by rewrite orb_false_r.
  - rewrite IH. unfold Config.addIntent.
    destruct (Config.intentFlag name) as [flag |].
    + by rewrite Z.lor_spec, orb_assoc.
    + reflexivity.
Qed.

Lemma intentFlag_range (name : string) (flag : Z) :
  Config.intentFlag name = Some flag -> (0 < flag < 2 ^ 22)%Z.
Proof.
  unfold Config.intentFlag.
  destruct (List.find _ Config.intentMap) as [[known f] |] eqn:Hfind; [| discriminate].
  cbn [fmap option_fmap option_map snd]. intros [= <-].
  apply List.find_some in Hfind as [Hin _].
  unfold Config.intentMap in Hin. cbn [In] in Hin.
  repeat (destruct Hin as [[= <- <-] | Hin]; [split; reflexivity |]).
  destruct Hin.
Qed.

Lemma fold_addIntent_range (names : list string) (acc : Z) :
  (0 <= acc < 2 ^ 22)%Z -> (0 <= fold_left Config.addIntent names acc < 2 ^ 22)%Z.
Proof.
  revert acc. induction names as [| name names IH]; intros acc Hacc; [exact Hacc |].
  cbn [fold_left]. apply IH. unfold Config.addIntent.
  destruct (Config.intentFlag name) as [flag |] eqn:Hflag; [| exact Hacc].
  apply intentFlag_range in Hflag. split.
  - apply Z.lor_nonneg. lia.
  - destruct (Z.eq_dec acc 0%Z) as [-> | Hnz]; [rewrite Z.lor_0_l; lia |].
    apply Z.log2_lt_pow2; [| rewrite Z.log2_lor by lia;
                              apply Z.max_lub_lt; apply Z.log2_lt_pow2; lia].
    assert (0 <= Z.lor acc flag)%Z by (apply Z.lor_nonneg; lia).
    assert (Z.lor acc flag <> 0)%Z by (rewrite Z.lor_eq_0_iff; lia).
    lia.
Qed.

(** X16: [parseGatewayIntents] sets bit [b] of the mask exactly when one of
    the comma-separated names, trimmed, is a name of [intentMap] whose flag
    has bit [b]; names it does not know add nothing, and the mask always
    fits in 22 bits. *)
Theorem parseGatewayIntents_bits (intentsString : string) :
  (forall b,
      Z.testbit (Config.parseGatewayIntents intentsString) b =
      existsb (fun name => match Config.intentFlag name with
                           | Some flag => Z.testbit flag b
                           | None => false
                           end)
              (map Config.trim (Config.split intentsString))) /\
  (0 <= Config.parseGatewayIntents intentsString < 2 ^ 22)%Z.
Proof.
  unfold Config.parseGatewayIntents. split.
  - intros b. rewrite fold_addIntent_testbit. by rewrite Z.testbit_0_l.
  - apply fold_addIntent_range. lia.
Qed.

(** ** Verdicts *)

Section Verdicts.

Import ContentModerator.

Variables (cfg : Config) (rules : Rules) (now : Z).


(** What [moderateContent] does with the results on a string. *)
Lemma moderateContent_string (s userId channelId guildId : string) (tr : list Logger.call)
    (checks : list ModerationResult) :
  enabled cfg = true ->
  runChecks cfg rules now (Js.Str s) = Js.Return checks ->
  let violations := List.filter (fun check => negb (isApproved check)) checks in
  (violations = [] /\
   moderateContent cfg rules now (Js.Str s) userId channelId guildId tr =
     (result now true "Content approved" low [], tr)) \/
  (exists v rest l1 l2,
      sortBy bySeverity violations = v :: rest /\
      violations = l1 ++ v :: l2 /\
      Forall (fun c => (severityOrder (severity c) < severityOrder (severity v))%Z) l1 /\
      Forall (fun c => (severityOrder (severity c) <= severityOrder (severity v))%Z) l2 /\
      moderateContent cfg rules now (Js.Str s) userId channelId guildId tr =
        (v, tr ++ [Words.moderatedEvent s userId channelId guildId v])).
Proof.
  intros Hon Hchecks. cbn zeta.
  unfold moderateContent, moderateBody. rewrite Hon, Hchecks. cbn [negb Js.bind].
  destruct (List.filter (fun check => negb (isApproved check)) checks) as [| v0 vs] eqn:Hviol.
  - left. split; [reflexivity |]. cbn. by rewrite app_nil_r.
  - right.
    destruct (sortBy_head (v0 :: vs)) as (v & rest & l1 & l2 & Hsort & Hl & Hlt & Hle);
      [discriminate |].
    exists v, rest, l1, l2. repeat (split; [assumption |]).
    cbn [length Nat.eqb]. rewrite Hsort.
    cbn [asString getLength Js.bind]. reflexivity.
Qed.





End Verdicts.

(** ** The forbidden-word list at run time *)

Lemma includes_In (xs : list string) (x : string) : Js.includes xs x = true <-> In x xs.
Proof. rewrite includes_elem_of. apply list_elem_of_In. Qed.

Lemma includes_false (xs : list string) (x : string) : Js.includes xs x = false <-> ~ In x xs.
Proof.
  rewrite <- includes_In. destruct (Js.includes xs x); split; congruence.
Qed.

Lemma newSet_fresh (ws seen : list string) (w : string) :
  In w (ContentModerator.newSet ws seen) -> ~ In w seen.
Proof.
  revert seen. induction ws as [| x ws IH]; intros seen; cbn [ContentModerator.newSet].
  - intros [].
  - destruct (Js.includes seen x) eqn:Hx.
    + apply IH.
    + intros [<- | Hin]; [by apply includes_false |].
      intros Hseen. apply (IH (x :: seen) Hin). by right.
Qed.

Lemma newSet_NoDup (ws seen : list string) : List.NoDup (ContentModerator.newSet ws seen).
Proof.
  revert seen. induction ws as [| x ws IH]; intros seen; cbn [ContentModerator.newSet].
  - constructor.
  - destruct (Js.includes seen x); [apply IH |].
    constructor; [| apply IH].
    intros Hin. apply newSet_fresh in Hin. apply Hin. by left.
Qed.

Lemma setAdd_NoDup (x : string) (l : list string) :
  List.NoDup l -> List.NoDup (Words.setAdd x l).
Proof.
  intros Hl. unfold Words.setAdd. destruct (Js.includes l x) eqn:Hx; [assumption |].
  apply includes_false in Hx. apply List.NoDup_app; repeat split; try assumption.
  - repeat constructor. intros [].
  - intros y Hy [<- | []]. contradiction.
Qed.

Lemma setDelete_In (x y : string) (l : list string) :
  In y (Words.setDelete x l) <-> In y l /\ y <> x.
Proof.
  unfold Words.setDelete. rewrite List.filter_In.
  destruct (String.eqb_spec x y); cbn [negb]; split; intros [? ?]; split;
    congruence.
Qed.

(** X17: the word list stays a set of stored words.  [moderationRules]
    starts it without duplicates, and [addForbiddenWord] and
    [removeForbiddenWord] keep it so; and if every word in it is lower-case,
    trimmed and not empty, that stays true whatever is added or removed. *)
Theorem forbidden_list_stays_clean (cfg : ContentModerator.Config)
    (rules : ContentModerator.Rules) (word : Js.value) (tr : list Logger.call) :
  List.NoDup (ContentModerator.forbidden (ContentModerator.moderationRules cfg)) /\
  (List.NoDup (ContentModerator.forbidden rules) ->
   List.NoDup (ContentModerator.forbidden (snd (fst (Words.addForbiddenWord word rules tr)))) /\
   forall out, Words.removeForbiddenWord word rules tr = Js.Return out ->
               List.NoDup (ContentModerator.forbidden (snd (fst out)))) /\
  (Forall Words.stored (ContentModerator.forbidden rules) ->
   Forall Words.stored
     (ContentModerator.forbidden (snd (fst (Words.addForbiddenWord word rules tr)))) /\
   forall out, Words.removeForbiddenWord word rules tr = Js.Return out ->
               Forall Words.stored (ContentModerator.forbidden (snd (fst out)))).
Proof.
  split; [apply newSet_NoDup |]. split.
  - intros Hnd. split.
    + unfold Words.addForbiddenWord. destruct word; try assumption.
      destruct (0 <? _)%nat; [| assumption]. cbn. by apply setAdd_NoDup.
    + intros out. unfold Words.removeForbiddenWord.
      destruct word; cbn [ContentModerator.asString Js.bind]; try discriminate.
      destruct (Js.includes _ _); intros [= <-]; cbn; [| assumption].
      unfold Words.setDelete. by apply List.NoDup_filter.
  - intros Hst. split.
    + unfold Words.addForbiddenWord. destruct word as [| | | | w | |]; try assumption.
      destruct (0 <? String.length (Config.trim w))%nat eqn:Hlen; [| assumption].
      cbn. unfold Words.setAdd. destruct (Js.includes _ _); [assumption |].
      apply Forall_app. split; [assumption |]. apply Forall_singleton.
      apply stored_normal. rewrite toLowerCase_empty. by apply length_positive.
    + intros out. unfold Words.removeForbiddenWord.
      destruct word; cbn [ContentModerator.asString Js.bind]; try discriminate.
      destruct (Js.includes _ _); intros [= <-]; cbn; [| assumption].
      apply List.Forall_forall. intros y Hy. apply setDelete_In in Hy as [Hy _].
      rewrite List.Forall_forall in Hst. by apply Hst.
Qed.

Lemma forbidden_list_stays_clean_witness :
  let rules := ContentModerator.moderationRules ContentModerator.defaultConfig in
  List.NoDup (ContentModerator.forbidden rules) /\
  List.NoDup (ContentModerator.forbidden
                (snd (fst (Words.addForbiddenWord (Js.Str " Spam ") rules [])))).
Proof.
  cbn zeta.
  pose proof (forbidden_list_stays_clean ContentModerator.defaultConfig
                (ContentModerator.moderationRules ContentModerator.defaultConfig)
                (Js.Str " Spam ") []) as (Hstart & Hkeep & _).
  split; [exact Hstart |]. exact (proj1 (Hkeep Hstart)).
Defined.





Lemma setDelete_last (x : string) (l : list string) :
  ~ In x l -> Words.setDelete x (l ++ [x]) = l.
Proof.
  intros Hx. unfold Words.setDelete. rewrite List.filter_app. cbn [List.filter].
  rewrite String.eqb_refl. cbn [negb]. rewrite app_nil_r.
  induction l as [| y l IH]; [reflexivity |].
  cbn [List.filter]. destruct (String.eqb_spec x y) as [-> | Hne]; cbn [negb].
  - exfalso. apply Hx. by left.
  - f_equal. apply IH. intros Hin. apply Hx. by right.
Qed.

(** X19: adding a new word and removing it again restores the list.  If
    the stored form of [word] is not yet in the list, [addForbiddenWord]
    appends it, and [removeForbiddenWord] called with that stored form
    returns [true] and leaves exactly the words, in the order, that were
    there before. *)
Theorem addForbiddenWord_removeForbiddenWord (rules : ContentModerator.Rules) (word : string)
    (tr0 tr1 : list Logger.call) :
  Config.trim word <> "" ->
  let w := Js.toLowerCase (Config.trim word) in
  ~ In w (ContentModerator.forbidden rules) ->
  let added := Words.addForbiddenWord (Js.Str word) rules tr0 in
  Words.getForbiddenWords (snd (fst added)) = Words.getForbiddenWords rules ++ [w] /\
  Words.removeForbiddenWord (Js.Str w) (snd (fst added)) tr1 =
    Js.Return (true, rules, tr1 ++ [Logger.Info ("Removed forbidden word: " +:+ w)]).
Proof.
  intros Hword w Hnew. cbn zeta.
  unfold Words.addForbiddenWord.
  assert ((0 <? String.length (Config.trim word))%nat = true) as ->
    by (by apply length_positive).
  cbn [fst snd]. unfold Words.getForbiddenWords, Words.setAdd. fold w.
  assert (Js.includes (ContentModerator.forbidden rules) w = false) as ->
    by (by apply includes_false).
  cbn [ContentModerator.forbidden]. split; [reflexivity |].
  unfold Words.removeForbiddenWord. cbn [ContentModerator.asString Js.bind].
  assert (Js.toLowerCase w = w) as -> by apply toLowerCase_idem.
  cbn [ContentModerator.forbidden].
  assert (Js.includes (ContentModerator.forbidden rules ++ [w]) w = true) as ->.
  { apply includes_In. apply List.in_or_app. right. by left. }
  rewrite (setDelete_last w _ Hnew). by destruct rules.
Qed.

Lemma addForbiddenWord_removeForbiddenWord_witness :
  let rules := ContentModerator.moderationRules ContentModerator.defaultConfig in
  let added := Words.addForbiddenWord (Js.Str " Casino ") rules [] in
  Config.trim " Casino " <> "" /\
  Words.removeForbiddenWord (Js.Str "casino") (snd (fst added)) [] =
    Js.Return (true, rules, [Logger.Info "Removed forbidden word: casino"]).
Proof.
  cbn zeta. split; [vm_compute; discriminate |].
  apply (proj2 (addForbiddenWord_removeForbiddenWord
                  (ContentModerator.moderationRules ContentModerator.defaultConfig)
                  " Casino " [] [] ltac:(vm_compute; discriminate)
                  ltac:(vm_compute; intuition discriminate))).
Defined.

Lemma length_toLowerCase (s : string) : String.length (Js.toLowerCase s) = String.length s.
Proof. induction s as [| c s IH]; [reflexivity |]. cbn. by rewrite IH. Qed.

Lemma trimStart_length (s : string) :
  (String.length (Config.trimStart s) <= String.length s)%nat /\
  (String.length (Config.trimStart s) = String.length s -> Config.trimStart s = s).
Proof.
  induction s as [| c s [IHle IHeq]]; [by split |].
  cbn [Config.trimStart]. destruct (Regex.isSpace c); cbn [String.length]; split;
    try lia; try reflexivity.
Qed.

Lemma trimEnd_length (s : string) :
  (String.length (Config.trimEnd s) <= String.length s)%nat /\
  (String.length (Config.trimEnd s) = String.length s -> Config.trimEnd s = s).
Proof.
  induction s as [| c s [IHle IHeq]]; [by split |].
  cbn [Config.trimEnd].
  destruct (Config.trimEnd s) as [| d r] eqn:Hr.
  - destruct (Regex.isSpace c); cbn [String.length] in *; split; try lia.
    intros Heq. destruct s; [reflexivity | cbn in Heq; lia].
  - cbn [String.length] in *. split; [lia |].
    intros Heq. rewrite IHeq by lia. reflexivity.
Qed.

Lemma trim_length (s : string) :
  String.length (Config.trim s) = String.length s -> Config.trim s = s.
Proof.
  unfold Config.trim. intros Heq.
  destruct (trimStart_length s) as [Hs1 Hs2].
  destruct (trimEnd_length (Config.trimStart s)) as [He1 He2].
  rewrite He2 by lia. apply Hs2. lia.
Qed.

(** X20: removing is not the mirror of adding.  [addForbiddenWord] trims
    its argument and answers [false] to anything that is not a string, while
    [removeForbiddenWord] does neither: called with a string that has white
    space at either end it finds nothing to remove in a list of stored words
    and returns [false], and called with anything but a string it throws. *)
Theorem removeForbiddenWord_does_not_trim (rules : ContentModerator.Rules)
    (tr : list Logger.call) :
  (forall word,
      Forall Words.stored (ContentModerator.forbidden rules) ->
      Config.trim word <> word ->
      Words.removeForbiddenWord (Js.Str word) rules tr = Js.Return (false, rules, tr)) /\
  (forall v, (forall s, v <> Js.Str s) ->
      Words.addForbiddenWord v rules tr = (false, rules, tr) /\
      exists e, Words.removeForbiddenWord v rules tr = Js.Throw e).
Proof.
  split.
  - intros word Hst Hpadded. unfold Words.removeForbiddenWord.
    cbn [ContentModerator.asString Js.bind].
    destruct (Js.includes (ContentModerator.forbidden rules) (Js.toLowerCase word)) eqn:Hin;
      [| reflexivity].
    exfalso. apply includes_In in Hin.
    rewrite List.Forall_forall in Hst. destruct (Hst _ Hin) as (_ & _ & Htrim).
    apply Hpadded. apply trim_length.
    rewrite trim_toLowerCase in Htrim. apply (f_equal String.length) in Htrim.
    by rewrite !length_toLowerCase in Htrim.
  - intros v Hv. split.
    + destruct v as [| | | | s | |]; try reflexivity. by destruct (Hv s).
    + unfold Words.removeForbiddenWord.
      destruct v as [| | | | s | |]; cbn [ContentModerator.asString Js.bind]; eauto.
      by destruct (Hv s).
Qed.

Lemma removeForbiddenWord_does_not_trim_witness :
  let rules := snd (fst (Words.addForbiddenWord (Js.Str " casino ")
                           (ContentModerator.moderationRules ContentModerator.defaultConfig)
                           [])) in
  Config.trim " casino " <> " casino " /\
  Words.removeForbiddenWord (Js.Str " casino ") rules [] = Js.Return (false, rules, []).
Proof.
  cbn zeta. split; [vm_compute; discriminate |].
  apply (proj1 (removeForbiddenWord_does_not_trim
                  (snd (fst (Words.addForbiddenWord (Js.Str " casino ")
                     (ContentModerator.moderationRules ContentModerator.defaultConfig) [])))
                  [])).
  - replace (ContentModerator.forbidden _) with ["spam"; "scam"; "malware"; "casino"]
      by (vm_compute; reflexivity).
    repeat (apply List.Forall_cons;
            [split; [discriminate | split; vm_compute; reflexivity] |]).
    apply List.Forall_nil.
  - vm_compute. discriminate.
Defined.

(** ** What the verdict can be *)

Section Severities.

Import ContentModerator.

Variables (cfg : Config) (rules : Rules) (now : Z).


End Severities.


(** ** What a rejection leaves in the log *)

Lemma substring0_length (n : nat) (s : string) :
  (String.length (String.substring 0 n s) <= n)%nat /\
  ((String.length s <= n)%nat -> String.substring 0 n s = s).
Proof.
  revert s. induction n as [| n IH]; intros s.
  - destruct s; cbn; split; try lia; reflexivity.
  - destruct s as [| c s]; cbn [String.substring String.length].
    + split; [lia | reflexivity].
    + destruct (IH s) as [Hle Heq]. split; [lia |].
      intros H. rewrite Heq by lia. reflexivity.
Qed.

Lemma append_length (a b : string) :
  String.length (a +:+ b) = (String.length a + String.length b)%nat.
Proof.
  induction a as [| c a IH]; [reflexivity |].
  change (String c a +:+ b) with (String c (a +:+ b)). cbn [String.length].
  by rewrite IH.
Qed.

Lemma append_empty (a : string) : a +:+ "" = a.
Proof.
  induction a as [| c a IH]; [reflexivity |].
  change (String c a +:+ "") with (String c (a +:+ "")). by rewrite IH.
Qed.

(** X22: with moderation enabled, [moderateContent] on a string logs
    nothing when it approves and exactly one [CONTENT_MODERATED] event when
    it does not, carrying the verdict's severity, reason and actions; the
    event quotes the message itself when that has at most 100 characters and
    otherwise its first 100 followed by an ellipsis, never more than 103
    characters. *)
Theorem moderateContent_logs_rejections (cfg : ContentModerator.Config)
    (rules : ContentModerator.Rules) (now : Z) (s userId channelId guildId : string)
    (tr : list Logger.call) :
  ContentModerator.enabled cfg = true ->
  let out := ContentModerator.moderateContent cfg rules now (Js.Str s)
               userId channelId guildId tr in
  (ContentModerator.isApproved (fst out) = true -> snd out = tr) /\
  (ContentModerator.isApproved (fst out) = false ->
   snd out = tr ++ [Words.moderatedEvent s userId channelId guildId (fst out)]) /\
  (String.length (Words.snippet s) <= 103)%nat /\
  ((String.length s <= 100)%nat -> Words.snippet s = s) /\
  ((100 < String.length s)%nat -> Words.snippet s = Js.substring0 100 s +:+ "...").
Proof.
  intros Hon. cbn zeta. split; [| split; [| split; [| split]]].
  - destruct (runChecks_string cfg rules now s) as [checks Hchecks].
    destruct (moderateContent_string cfg rules now s userId channelId guildId tr checks
                Hon Hchecks) as [[_ ->] | (v & rest & l1 & l2 & _ & Hl & _ & _ & ->)];
      [reflexivity |].
    cbn [fst snd]. cbn zeta in Hl. intros Hv.
    assert (Hin : In v (List.filter (fun check => negb (ContentModerator.isApproved check))
                          checks)).
    { rewrite Hl. apply List.in_or_app. right. by left. }
    apply List.filter_In in Hin as [_ Hb]. rewrite Hv in Hb. discriminate.
  - destruct (runChecks_string cfg rules now s) as [checks Hchecks].
    destruct (moderateContent_string cfg rules now s userId channelId guildId tr checks
                Hon Hchecks) as [[_ ->] | (v & rest & l1 & l2 & _ & _ & _ & _ & ->)];
      [discriminate | reflexivity].
  - unfold Words.snippet, Js.substring0. rewrite append_length.
    destruct (substring0_length 100 s) as [Hle _].
    destruct (ContentModerator.gtNum _ _); cbn [String.length]; lia.
  - intros Hshort. unfold Words.snippet, Js.substring0.
    destruct (substring0_length 100 s) as [_ Heq]. rewrite (Heq Hshort).
    cbn [ContentModerator.gtNum].
    assert ((100 <? Z.of_nat (String.length s))%Z = false) as ->
      by (apply Z.ltb_ge; lia).
    apply append_empty.
  - intros Hlong. unfold Words.snippet. cbn [ContentModerator.gtNum].
    assert ((100 <? Z.of_nat (String.length s))%Z = true) as ->
      by (apply Z.ltb_lt; lia).
    reflexivity.
Qed.

Lemma moderateContent_logs_rejections_witness :
  let out := ContentModerator.moderateContent ContentModerator.defaultConfig
               (ContentModerator.moderationRules ContentModerator.defaultConfig) 0
               (Js.Str "zzzzzz") "u" "c" "g" [] in
  ContentModerator.isApproved (fst out) = false /\
  snd out = [Words.moderatedEvent "zzzzzz" "u" "c" "g" (fst out)].
Proof.
  cbn zeta. split; [vm_compute; reflexivity |].
  apply (proj1 (proj2 (moderateContent_logs_rejections ContentModerator.defaultConfig
                         (ContentModerator.moderationRules ContentModerator.defaultConfig) 0
                         "zzzzzz" "u" "c" "g" [] eq_refl))).
  vm_compute. reflexivity.
Defined.

(** ** Runs of one character *)







(** ** Messages over the length limit *)


